(** * WeatherAppProject: the request builder and the fetch cycle of [src/App.jsx]

    A shallow embedding of the logic of the single component of the
    application: [buildUrl], [handleModeChange] and [handleSubmit].

    Conventions of the model.
    - A JavaScript string is carried by the bytes of its UTF-8 encoding
      ([string] of the Standard Library), a surrogate that is part of no
      pair by the three bytes of the generalised encoding (237, then 160
      to 191, then 128 to 191). [URLSearchParams] takes its arguments as
      USVString: it replaces such a surrogate by U+FFFD before it
      serialises.
    - [URLSearchParams] is an association list: order and duplicates are
      observable in the serialised query.
    - The component's [useState] cells form the record [AppState]; a handler
      is a tree of the effects it performs, in program order: the state
      setters and the one suspension point, [await fetch(url)].
    - Library functions of the platform ([URLSearchParams], [String.trim],
      truthiness, [ToString]) follow the WHATWG URL standard and ECMA-262. *)

From Stdlib Require Import Bool Arith NArith List String Ascii Lia.
Import ListNotations.
Local Open Scope string_scope.

Set Warnings "-register-all".

(* ================================================================== *)
(** ** Bytes and strings                                               *)
(* ================================================================== *)

Module Bytes.

Definition code (c : ascii) : N := N_of_ascii c.

Definition in_range (lo hi : N) (c : ascii) : bool :=
  (N.leb lo (code c) && N.leb (code c) hi)%bool.

Definition is_digit (c : ascii) : bool := in_range 48 57 c.
Definition is_upper (c : ascii) : bool := in_range 65 90 c.
Definition is_lower (c : ascii) : bool := in_range 97 122 c.
Definition is_alnum (c : ascii) : bool :=
  (is_digit c || is_upper c || is_lower c)%bool.

(** Truthiness of a string value: every string but the empty one. *)
Definition truthy (s : string) : bool :=
  match s with EmptyString => false | String _ _ => true end.

(** Every byte of [s] satisfies [p]. *)
Fixpoint all (p : ascii -> bool) (s : string) : bool :=
  match s with
  | EmptyString => true
  | String d r => (p d && all p r)%bool
  end.

(** Splits at the first byte satisfying [p]: the prefix before it, and the
    rest starting with that byte (empty when there is none). *)
Fixpoint break (p : ascii -> bool) (s : string) : string * string :=
  match s with
  | EmptyString => (EmptyString, EmptyString)
  | String d r =>
      if p d then (EmptyString, s)
      else let (a, b) := break p r in (String d a, b)
  end.

(** [s.split(sep)] for a one-byte separator: never the empty list. *)
Fixpoint split_on (sep : ascii) (s : string) : list string :=
  match s with
  | EmptyString => [EmptyString]
  | String d r =>
      if Ascii.eqb d sep then EmptyString :: split_on sep r
      else match split_on sep r with
           | [] => [String d EmptyString]
           | h :: t => String d h :: t
           end
  end.

(** Removes [p] from the front of [s], when it is there. *)
Fixpoint strip_prefix (p s : string) : option string :=
  match p, s with
  | EmptyString, _ => Some s
  | String a p', String b s' =>
      if Ascii.eqb a b then strip_prefix p' s' else None
  | String _ _, EmptyString => None
  end.

End Bytes.

(* ================================================================== *)
(** ** USVString (Web IDL): strings of scalar values                    *)
(* ================================================================== *)

Module Unicode.
Import Bytes.

(** The three bytes that carry a surrogate: U+D800 to U+DFFF. *)
Definition surrogate (a b c : ascii) : bool :=
  (Ascii.eqb a "237" && in_range 160 191 b && in_range 128 191 c)%bool.

(** U+FFFD, REPLACEMENT CHARACTER. *)
Definition replacement : string :=
  String "239" (String "191" (String "189" EmptyString)).

(** The conversion to USVString: every surrogate becomes U+FFFD. *)
Fixpoint to_usv (s : string) : string :=
  match s with
  | EmptyString => EmptyString
  | String a r =>
      match r with
      | String b (String c r') =>
          if surrogate a b c then replacement ++ to_usv r'
          else String a (to_usv r)
      | _ => String a (to_usv r)
      end
  end.

(** The string holds a surrogate. *)
Fixpoint has_surrogate (s : string) : bool :=
  match s with
  | EmptyString => false
  | String a r =>
      match r with
      | String b (String c _) => (surrogate a b c || has_surrogate r)%bool
      | _ => has_surrogate r
      end
  end.

End Unicode.

(* ================================================================== *)
(** ** application/x-www-form-urlencoded (WHATWG URL, section 5)       *)
(* ================================================================== *)

Module UrlEncoded.
Import Bytes.

(** Bytes the serialiser leaves as they are: ASCII alphanumerics and
    [*], [-], [.], [_]. *)
Definition is_unreserved (c : ascii) : bool :=
  (is_alnum c
   || Ascii.eqb c "*" || Ascii.eqb c "-" || Ascii.eqb c "." || Ascii.eqb c "_")%bool.

(** Upper-case hexadecimal digit of a value below 16. *)
Definition hex_digit (n : N) : ascii :=
  if N.ltb n 10 then ascii_of_N (48 + n) else ascii_of_N (55 + n).

(** Value of a hexadecimal digit, either case. *)
Definition hex_value (c : ascii) : option N :=
  if is_digit c then Some (code c - 48)%N
  else if in_range 65 70 c then Some (code c - 55)%N
  else if in_range 97 102 c then Some (code c - 87)%N
  else None.

(** Percent-encode one byte, with space as [+]. *)
Definition encode_byte (c : ascii) : string :=
  if is_unreserved c then String c EmptyString
  else if Ascii.eqb c " " then "+"
  else String "%" (String (hex_digit (code c / 16))
                     (String (hex_digit (code c mod 16)) EmptyString)).

Fixpoint encode (s : string) : string :=
  match s with
  | EmptyString => EmptyString
  | String c r => encode_byte c ++ encode r
  end.

(** One [name=value] tuple. *)
Definition tuple (nv : string * string) : string :=
  encode (fst nv) ++ "=" ++ encode (snd nv).

(** The serialiser: the tuples joined by [&]. *)
Fixpoint serialize (l : list (string * string)) : string :=
  match l with
  | [] => EmptyString
  | nv :: rest =>
      match rest with
      | [] => tuple nv
      | _ :: _ => tuple nv ++ "&" ++ serialize rest
      end
  end.

(** The parser's side, used to read a built URL back. *)

Fixpoint plus_to_space (s : string) : string :=
  match s with
  | EmptyString => EmptyString
  | String c r =>
      String (if Ascii.eqb c "+" then " "%char else c) (plus_to_space r)
  end.

Fixpoint percent_decode (s : string) : string :=
  match s with
  | EmptyString => EmptyString
  | String c r =>
      if Ascii.eqb c "%" then
        match r with
        | String a (String b r') =>
            match hex_value a, hex_value b with
            | Some h, Some l => String (ascii_of_N (16 * h + l)) (percent_decode r')
            | _, _ => String c (percent_decode r)
            end
        | _ => String c (percent_decode r)
        end
      else String c (percent_decode r)
  end.

Definition decode (s : string) : string := percent_decode (plus_to_space s).

Definition parse_tuple (seq : string) : string * string :=
  let (n, rest) := break (Ascii.eqb "=") seq in
  (decode n, decode (match rest with EmptyString => EmptyString | String _ v => v end)).

Definition parse (s : string) : list (string * string) :=
  map parse_tuple (filter truthy (split_on "&" s)).

End UrlEncoded.

(* ================================================================== *)
(** ** URLSearchParams                                                 *)
(* ================================================================== *)

Module URLSearchParams.

Definition t : Type := list (string * string).

(** [new URLSearchParams()] *)
Definition empty : t := [].

Definition has (name : string) (p : t) : bool :=
  existsb (fun nv => String.eqb (fst nv) name) p.

(** Drops every tuple called [name]. *)
Definition remove (name : string) (p : t) : t :=
  filter (fun nv => negb (String.eqb (fst nv) name)) p.

(** Overwrites the first tuple called [name] and drops the later ones. *)
Fixpoint overwrite (name value : string) (p : t) : t :=
  match p with
  | [] => []
  | (n, v) :: rest =>
      if String.eqb n name then (n, value) :: remove name rest
      else (n, v) :: overwrite name value rest
  end.

(** [params.set(name, value)]: both arguments are converted to
    USVString; then overwrite when the name is there, append otherwise. *)
Definition set (name value : string) (p : t) : t :=
  let name := Unicode.to_usv name in
  let value := Unicode.to_usv value in
  if has name p then overwrite name value p
  else (p ++ [(name, value)])%list.

(** [params.getAll(name)] *)
Definition getAll (name : string) (p : t) : list string :=
  map snd (filter (fun nv => String.eqb (fst nv) name) p).

(** [params.toString()] *)
Definition toString (p : t) : string := UrlEncoded.serialize p.

End URLSearchParams.

(* ================================================================== *)
(** ** The request builder                                             *)
(* ================================================================== *)

Definition API_BASE_URL : string := "https://api.weatherstack.com".

Module MODES.
Definition CURRENT : string := "current".
Definition HISTORICAL : string := "historical".
Definition MARINE : string := "marine".
End MODES.

(** [API_KEY || ''] on the credential read from the build environment,
    [None] when the variable is not defined. *)
Definition key_or_empty (API_KEY : option string) : string :=
  match API_KEY with
  | Some k => if Bytes.truthy k then k else ""
  | None => ""
  end.

(** [buildUrl({ mode, location, date })]; [params] is threaded through the
    [set] calls in program order. *)
Definition buildUrl (API_KEY : option string) (mode location date : string) : string :=
  let params := URLSearchParams.empty in
  let params := URLSearchParams.set "access_key" (key_or_empty API_KEY) params in
  if String.eqb mode MODES.MARINE then
    let params := URLSearchParams.set "query" location params in
    API_BASE_URL ++ "/marine?" ++ URLSearchParams.toString params
  else
    let params := URLSearchParams.set "query" location params in
    let params :=
      if (String.eqb mode MODES.HISTORICAL && Bytes.truthy date)%bool
      then URLSearchParams.set "historical_date" date params
      else params in
    let endpoint :=
      if String.eqb mode MODES.HISTORICAL then "historical" else "current" in
    API_BASE_URL ++ "/" ++ endpoint ++ "?" ++ URLSearchParams.toString params.

(** The endpoint [buildUrl] targets, as a function of the mode. *)
Definition endpoint_of (mode : string) : string :=
  if String.eqb mode MODES.MARINE then "marine"
  else if String.eqb mode MODES.HISTORICAL then "historical"
  else "current".

(** The tuples [buildUrl] sets, in the order of its [set] calls, each
    value as USVString. *)
Definition params_of (API_KEY : option string) (mode location date : string)
  : URLSearchParams.t :=
  ([("access_key", Unicode.to_usv (key_or_empty API_KEY));
    ("query", Unicode.to_usv location)]
   ++ (if (String.eqb mode MODES.HISTORICAL && Bytes.truthy date)%bool
       then [("historical_date", Unicode.to_usv date)] else []))%list.

(* ================================================================== *)
(** ** The builder as it runs: objects, mutation, requests             *)
(* ================================================================== *)

(** [buildUrl] once more, statement by statement, on a store of the
    objects it can reach and a log of the requests sent: the object
    literal it is called with, and the [URLSearchParams] it creates
    and mutates. *)
Module Machine.

Inductive object : Type :=
| Query (mode location date : string)
| SearchParams (p : URLSearchParams.t).

(** The objects by reference (the index in [heap]) and the URLs passed
    to [fetch] so far. *)
Record store : Type := mkStore {
  heap : list object;
  requests : list string
}.

Inductive outcome (A : Type) : Type :=
| Returns (a : A) (w : store)
| Throws (w : store).

Arguments Returns {A} a w.
Arguments Throws {A} w.

Definition M (A : Type) : Type := store -> outcome A.

Definition ret {A : Type} (a : A) : M A := fun w => Returns a w.

Definition throw {A : Type} : M A := fun w => Throws w.

Definition bind {A B : Type} (m : M A) (f : A -> M B) : M B :=
  fun w =>
    match m w with
    | Returns a w' => f a w'
    | Throws w' => Throws w'
    end.

Notation "x <- m ;; k" := (bind m (fun x => k))
  (at level 61, m at next level, right associativity).

(** A new object, at a fresh reference. *)
Definition alloc (o : object) : M nat :=
  fun w => Returns (List.length (heap w)) (mkStore (heap w ++ [o]) (requests w)).

Definition load (r : nat) : M object :=
  fun w =>
    match nth_error (heap w) r with
    | Some o => Returns o w
    | None => Throws w
    end.

(** [l] with [x] at index [i]. *)
Fixpoint put {A : Type} (i : nat) (x : A) (l : list A) : list A :=
  match l, i with
  | [], _ => []
  | _ :: t, O => x :: t
  | h :: t, S j => h :: put j x t
  end.

Definition write (r : nat) (o : object) : M unit :=
  fun w => Returns tt (mkStore (put r o (heap w)) (requests w)).

(** [fetch(url)], as far as the log goes. *)
Definition fetch (url : string) : M unit :=
  fun w => Returns tt (mkStore (heap w) (requests w ++ [url])).

(** [new URLSearchParams()] *)
Definition new_URLSearchParams : M nat :=
  alloc (SearchParams URLSearchParams.empty).

(** [params.set(name, value)]: the object at [params] is updated in
    place. *)
Definition params_set (params : nat) (name value : string) : M unit :=
  o <- load params ;;
  match o with
  | SearchParams p => write params (SearchParams (URLSearchParams.set name value p))
  | Query _ _ _ => throw
  end.

(** [params.toString()] *)
Definition params_toString (params : nat) : M string :=
  o <- load params ;;
  match o with
  | SearchParams p => ret (URLSearchParams.toString p)
  | Query _ _ _ => throw
  end.

(** [buildUrl(arg)] for [arg] the reference of [{ mode, location, date }]. *)
Definition buildUrl (API_KEY : option string) (arg : nat) : M string :=
  o <- load arg ;;
  match o with
  | SearchParams _ => throw
  | Query mode location date =>
      params <- new_URLSearchParams ;;
      _ <- params_set params "access_key" (key_or_empty API_KEY) ;;
      if String.eqb mode MODES.MARINE then
        _ <- params_set params "query" location ;;
        q <- params_toString params ;;
        ret (API_BASE_URL ++ "/marine?" ++ q)
      else
        _ <- params_set params "query" location ;;
        _ <- (if (String.eqb mode MODES.HISTORICAL && Bytes.truthy date)%bool
              then params_set params "historical_date" date
              else ret tt) ;;
        let endpoint :=
          if String.eqb mode MODES.HISTORICAL then "historical" else "current" in
        q <- params_toString params ;;
        ret (API_BASE_URL ++ "/" ++ endpoint ++ "?" ++ q)
  end.

(** Lines 69 and 70 of [handleSubmit]: the object literal, the call of
    [buildUrl] and the call of [fetch]. *)
Definition request (API_KEY : option string) (mode location date : string)
  : M string :=
  arg <- alloc (Query mode location date) ;;
  url <- buildUrl API_KEY arg ;;
  _ <- fetch url ;;
  ret url.

End Machine.

(* ================================================================== *)
(** ** Reading a URL back: path and query of an https URL              *)
(* ================================================================== *)

Module Url.
Import Bytes.

Definition ends_authority (c : ascii) : bool :=
  (Ascii.eqb c "/" || Ascii.eqb c "?" || Ascii.eqb c "#")%bool.

Definition ends_path (c : ascii) : bool :=
  (Ascii.eqb c "?" || Ascii.eqb c "#")%bool.

(** The three components after the scheme: authority, path, and the part
    from the first [?] or [#] on. *)
Definition components (u : string) : option (string * string * string) :=
  match strip_prefix "https://" u with
  | None => None
  | Some r =>
      let (authority, r1) := break ends_authority r in
      let (path, r2) := break ends_path r1 in
      Some (authority, path, r2)
  end.

Definition origin (u : string) : option string :=
  match components u with
  | Some (a, _, _) => Some ("https://" ++ a)
  | None => None
  end.

Definition pathname (u : string) : option string :=
  match components u with
  | Some (_, p, _) => Some p
  | None => None
  end.

(** The query without its leading [?], cut at the fragment. *)
Definition query (u : string) : option string :=
  match components u with
  | Some (_, _, String "?" q) => Some (fst (break (Ascii.eqb "#") q))
  | Some (_, _, _) => Some ""
  | None => None
  end.

(** [new URL(u).searchParams] *)
Definition searchParams (u : string) : option URLSearchParams.t :=
  match query u with
  | Some q => Some (UrlEncoded.parse q)
  | None => None
  end.

(** The values of the query parameter [name], in order of appearance;
    the empty list also for a string that is not an https URL. *)
Definition param (name u : string) : list string :=
  match searchParams u with
  | Some p => URLSearchParams.getAll name p
  | None => []
  end.

(** The URL carries a query parameter called [name]. *)
Definition has_param (name u : string) : bool :=
  match param name u with
  | [] => false
  | _ :: _ => true
  end.

End Url.

(* ================================================================== *)
(** ** String.prototype.trim (ECMA-262: WhiteSpace and LineTerminator)  *)
(* ================================================================== *)

Module Trim.
Import Bytes.

(** TAB, LF, VT, FF, CR and SPACE. *)
Definition ws1 (a : ascii) : bool :=
  (in_range 9 13 a || Ascii.eqb a " ")%bool.

(** U+00A0, in two bytes. *)
Definition ws2 (a b : ascii) : bool :=
  (Ascii.eqb a "194" && Ascii.eqb b "160")%bool.

(** U+1680, U+2000 to U+200A, U+2028, U+2029, U+202F, U+205F, U+3000 and
    U+FEFF, in three bytes. *)
Definition ws3 (a b c : ascii) : bool :=
  (Ascii.eqb a "225" && Ascii.eqb b "154" && Ascii.eqb c "128"
   || Ascii.eqb a "226" && Ascii.eqb b "128"
      && (in_range 128 138 c || in_range 168 169 c || Ascii.eqb c "175")
   || Ascii.eqb a "226" && Ascii.eqb b "129" && Ascii.eqb c "159"
   || Ascii.eqb a "227" && Ascii.eqb b "128" && Ascii.eqb c "128"
   || Ascii.eqb a "239" && Ascii.eqb b "187" && Ascii.eqb c "191")%bool.

Fixpoint trimStart (s : string) : string :=
  match s with
  | EmptyString => s
  | String a r1 =>
      if ws1 a then trimStart r1
      else match r1 with
           | EmptyString => s
           | String b r2 =>
               if ws2 a b then trimStart r2
               else match r2 with
                    | EmptyString => s
                    | String c r3 => if ws3 a b c then trimStart r3 else s
                    end
           end
  end.

(** Cuts [s] where its last run of white space begins. *)
Fixpoint trimEnd (s : string) : string :=
  match s with
  | EmptyString => s
  | String a r =>
      if truthy (trimStart s) then String a (trimEnd r) else EmptyString
  end.

Definition trim (s : string) : string := trimEnd (trimStart s).

(** The white space characters, each by its encoding. *)
Definition white_space : list string :=
  map (fun bytes => string_of_list_ascii (map ascii_of_nat bytes))
    [ [9]; [10]; [11]; [12]; [13]; [32]; [194; 160]; [225; 154; 128];
      [226; 128; 128]; [226; 128; 129]; [226; 128; 130]; [226; 128; 131];
      [226; 128; 132]; [226; 128; 133]; [226; 128; 134]; [226; 128; 135];
      [226; 128; 136]; [226; 128; 137]; [226; 128; 138];
      [226; 128; 168]; [226; 128; 169]; [226; 128; 175]; [226; 129; 159];
      [227; 128; 128]; [239; 187; 191] ]%nat.

(** A string that is empty or made of white space characters only. *)
Inductive blank : string -> Prop :=
| blank_empty : blank ""
| blank_more : forall w s, In w white_space -> blank s -> blank (w ++ s).

End Trim.

(* ================================================================== *)
(** ** JSON documents as the handler observes them                     *)
(* ================================================================== *)

(** A parsed body. A number is carried by its [Number::toString]
    rendering, which determines it up to the sign of zero; ["0"] is the
    only falsy one that [JSON.parse] produces. An object lists its
    members in the order of the text. *)
Inductive json : Type :=
| JNull
| JBool (b : bool)
| JNumber (text : string)
| JString (s : string)
| JArray (items : list json)
| JObject (members : list (string * json)).

Module Js.

(** A value read from a document: [None] is [undefined]. *)
Definition value : Type := option json.

(** ToBoolean *)
Definition truthy (v : value) : bool :=
  match v with
  | None | Some JNull => false
  | Some (JBool b) => b
  | Some (JNumber text) => negb (String.eqb text "0")
  | Some (JString s) => Bytes.truthy s
  | Some (JArray _) | Some (JObject _) => true
  end.

(** The member called [key] of an object of [JSON.parse]: a later
    duplicate has overwritten an earlier one. *)
Fixpoint member (key : string) (members : list (string * json)) : value :=
  match members with
  | [] => None
  | (k, v) :: rest =>
      match member key rest with
      | Some later => Some later
      | None => if String.eqb k key then Some v else None
      end
  end.

(** [j.key] on a value other than [null], for a key that no prototype
    defines ([error] and [info] are such keys): own members of an
    object, [undefined] elsewhere. *)
Definition prop (key : string) (j : json) : value :=
  match j with
  | JObject members => member key members
  | _ => None
  end.

(** [v?.key] *)
Definition optional_prop (key : string) (v : value) : value :=
  match v with
  | None | Some JNull => None
  | Some j => prop key j
  end.

(** ToString, [None] when it throws a TypeError. An object of
    [JSON.parse] converts through the inherited [toString] to
    ["[object Object]"], unless it has a member of its own called
    [toString]: that one is found first, is not callable, and neither
    is [valueOf] of any help, so the conversion throws. An array joins
    the conversions of its elements with commas, [null] elements as
    empty strings, and throws when one of them does. *)
Fixpoint ToString (j : json) : option string :=
  match j with
  | JNull => Some "null"
  | JBool true => Some "true"
  | JBool false => Some "false"
  | JNumber text => Some text
  | JString s => Some s
  | JArray items =>
      (fix join (l : list json) : option string :=
         match l with
         | [] => Some ""
         | x :: rest =>
             match match x with JNull => Some "" | _ => ToString x end with
             | None => None
             | Some elt =>
                 match rest with
                 | [] => Some elt
                 | _ :: _ =>
                     match join rest with
                     | Some others => Some (elt ++ "," ++ others)
                     | None => None
                     end
                 end
             end
         end) items
  | JObject members =>
      match member "toString" members with
      | Some _ => None
      | None => Some "[object Object]"
      end
  end.

End Js.

(* ================================================================== *)
(** ** The component: state, effects, handlers                         *)
(* ================================================================== *)

(** The six [useState] cells of [App]. *)
Record AppState : Type := mkState {
  mode : string;
  location : string;
  date : string;
  weatherData : option json;
  isLoading : bool;
  error : string
}.

(** The first render. *)
Definition initialState : AppState :=
  mkState MODES.CURRENT "" "" None false "".

(** How [await fetch(url)] followed by [await res.json()] can end. *)
Inductive body_outcome : Type :=
| BodyRejected (message : string)
| BodyParsed (j : json).

Inductive fetch_outcome : Type :=
| FetchRejected (message : string)
| FetchResolved (ok : bool) (body : body_outcome).

(** A handler: the setters it calls in program order, and the point where
    it suspends on the network. *)
Inductive action : Type :=
| done
| setMode (m : string) (k : action)
| setLocation (v : string) (k : action)
| setDate (v : string) (k : action)
| setWeatherData (d : option json) (k : action)
| setIsLoading (b : bool) (k : action)
| setError (msg : string) (k : action)
| fetch (url : string) (k : fetch_outcome -> action).

(** Where a handler stands when it stops running. *)
Inductive status : Type :=
| Returned
| Awaiting (url : string) (k : fetch_outcome -> action).

Fixpoint run (a : action) (s : AppState) : AppState * status :=
  match a with
  | done => (s, Returned)
  | setMode m k =>
      run k (mkState m (location s) (date s) (weatherData s) (isLoading s) (error s))
  | setLocation v k =>
      run k (mkState (mode s) v (date s) (weatherData s) (isLoading s) (error s))
  | setDate v k =>
      run k (mkState (mode s) (location s) v (weatherData s) (isLoading s) (error s))
  | setWeatherData d k =>
      run k (mkState (mode s) (location s) (date s) d (isLoading s) (error s))
  | setIsLoading b k =>
      run k (mkState (mode s) (location s) (date s) (weatherData s) b (error s))
  | setError msg k =>
      run k (mkState (mode s) (location s) (date s) (weatherData s) (isLoading s) msg)
  | fetch url k => (s, Awaiting url k)
  end.

(** The number of network calls a handler makes when every call it
    awaits ends as [answer] says. *)
Fixpoint fetches (answer : string -> fetch_outcome) (a : action) : nat :=
  match a with
  | done => 0
  | setMode _ k | setLocation _ k | setDate _ k
  | setWeatherData _ k | setIsLoading _ k | setError _ k => fetches answer k
  | fetch url k => S (fetches answer (k (answer url)))
  end.

(** [s] with its [error] cell set to [msg], the other cells as they are. *)
Definition with_error (s : AppState) (msg : string) : AppState :=
  mkState (mode s) (location s) (date s) (weatherData s) (isLoading s) msg.

(** [s] as [handleSubmit] leaves it when it sends its request. *)
Definition loading (s : AppState) : AppState :=
  mkState (mode s) (location s) (date s) None true "".

Definition handleModeChange (nextMode : string) : action :=
  setMode nextMode (setWeatherData None (setError "" done)).

Module Messages.
Definition missing_key : string :=
  "Missing API key. Please set VITE_WEATHERSTACK_API_KEY in your .env file.".
Definition missing_location : string :=
  "Please enter a location (city name or " ++ String "034" "lat,lon"
  ++ String "034" ").".
Definition missing_date : string := "Please pick a historical date.".
Definition upstream_fallback : string := "Failed to fetch weather data.".
Definition generic_fallback : string :=
  "Something went wrong while fetching weather data.".
End Messages.

(* ================================================================== *)
(** ** Notions used to state what the code guarantees                   *)
(* ================================================================== *)

(** The bytes a built URL is made of: the unreserved ones, the
    delimiters of a URL and the marks of the query encoding. *)
Definition url_byte (c : ascii) : bool :=
  (UrlEncoded.is_unreserved c
   || Ascii.eqb c ":" || Ascii.eqb c "/" || Ascii.eqb c "?"
   || Ascii.eqb c "&" || Ascii.eqb c "=" || Ascii.eqb c "%" || Ascii.eqb c "+")%bool.

(** A value the date input hands to [setDate] besides the empty one: a
    year of four digits or more, a month and a day of two, with hyphens. *)
Definition valid_date_string (d : string) : bool :=
  match Bytes.split_on "-" d with
  | [y; m; dd] =>
      (Bytes.all Bytes.is_digit y && Nat.leb 4 (String.length y)
       && Bytes.all Bytes.is_digit m && Nat.eqb (String.length m) 2
       && Bytes.all Bytes.is_digit dd && Nat.eqb (String.length dd) 2)%bool
  | _ => false
  end.

Definition date_input_value (d : string) : bool :=
  (negb (Bytes.truthy d) || valid_date_string d)%bool.

(* ================================================================== *)
(** ** What the component renders                                      *)
(* ================================================================== *)

Module View.

(** A React element as the render functions build it: literal text, an
    embedded expression with the value it evaluated to, or an element
    with its [className] and children. *)
Inductive node : Type :=
| Text (s : string)
| Expr (v : Js.value)
| Elem (tag : string) (className : option string) (children : list node).

(** Reading a property of [null] or [undefined] throws. *)
Inductive thrown : Type := TypeError.

Definition result (A : Type) : Type := (thrown + A)%type.

Definition ret {A : Type} (a : A) : result A := inr a.

Definition bind {A B : Type} (m : result A) (f : A -> result B) : result B :=
  match m with
  | inl e => inl e
  | inr a => f a
  end.

Notation "x <- m ;; k" := (bind m (fun x => k))
  (at level 61, m at next level, right associativity).

(** [v.key], for the keys of [Js.prop]; a date of the date input (empty,
    or year, month and day with hyphens) is such a key too: it names no
    inherited property and no index. *)
Definition get (key : string) (v : Js.value) : result Js.value :=
  match v with
  | None | Some JNull => inl TypeError
  | Some j => inr (Js.prop key j)
  end.

(** The first UTF-16 unit of a string, as a string. For a character
    outside the basic plane, which takes four bytes, that is its high
    surrogate, carried by the three bytes of the generalised encoding. *)
Definition first_unit (s : string) : string :=
  match s with
  | EmptyString => EmptyString
  | String a r =>
      let n := Bytes.code a in
      if N.ltb n 192 then String a EmptyString
      else if N.ltb n 224 then
        match r with
        | String b _ => String a (String b EmptyString)
        | EmptyString => s
        end
      else if N.ltb n 240 then
        match r with
        | String b (String c _) => String a (String b (String c EmptyString))
        | _ => s
        end
      else
        match r with
        | String b (String c _) =>
            let top := ((n mod 8) * 256 + (Bytes.code b mod 64) * 4
                        + (Bytes.code c mod 64) / 16)%N in
            let hi := (55296 + top - 64)%N in
            String "237"
              (String (ascii_of_N (128 + (hi / 64) mod 64))
                 (String (ascii_of_N (128 + hi mod 64)) EmptyString))
        | _ => s
        end
  end.

(** The element at index 0 of a value other than [null]. *)
Definition at0 (j : json) : Js.value :=
  match j with
  | JArray (x :: _) => Some x
  | JArray [] => None
  | JObject members => Js.member "0" members
  | JString EmptyString => None
  | JString s => Some (JString (first_unit s))
  | _ => None
  end.

(** [v[0]] *)
Definition get0 (v : Js.value) : result Js.value :=
  match v with
  | None | Some JNull => inl TypeError
  | Some j => inr (at0 j)
  end.

(** [v?.[0]] *)
Definition optional_at0 (v : Js.value) : Js.value :=
  match v with
  | None | Some JNull => None
  | Some j => at0 j
  end.

(** One metric of the grid: a label and a value with its unit. *)
Definition metric (label : string) (v : Js.value) (unit : string) : node :=
  Elem "div" None
    [ Elem "p" (Some "metric-label") [Text label];
      Elem "p" (Some "metric-value") [Expr v; Text unit] ].

Definition renderCurrent (weatherData : Js.value) : result (option node) :=
  if negb (Js.truthy weatherData) then ret None else
  shown_current <- get "current" weatherData ;;
  if negb (Js.truthy shown_current) then ret None else
  loc <- get "location" weatherData ;;
  current <- get "current" weatherData ;;
  temperature <- get "temperature" current ;;
  feelslike <- get "feelslike" current ;;
  weather_descriptions <- get "weather_descriptions" current ;;
  humidity <- get "humidity" current ;;
  wind_speed <- get "wind_speed" current ;;
  wind_dir <- get "wind_dir" current ;;
  ret (Some
    (Elem "div" (Some "glass-card")
       [ Elem "h2" (Some "card-title") [Text "Current Weather"];
         Elem "p" (Some "location-label")
           [ Expr (Js.optional_prop "name" loc); Text ", ";
             Expr (Js.optional_prop "country" loc) ];
         Elem "div" (Some "current-main")
           [ Elem "div" (Some "current-temp")
               [ Elem "span" (Some "temp-value") [Expr temperature; Text "°C"];
                 Elem "span" (Some "temp-feels")
                   [Text "Feels like "; Expr feelslike; Text "°C"] ];
             Elem "div" (Some "current-meta")
               [ Elem "p" None [Expr (optional_at0 weather_descriptions)];
                 Elem "p" None [Text "Humidity: "; Expr humidity; Text "%"];
                 Elem "p" None
                   [ Text "Wind: "; Expr wind_speed; Text " km/h ";
                     Expr wind_dir ] ] ] ])).

Definition renderHistorical (weatherData : Js.value) (date : string)
  : result (option node) :=
  if negb (Js.truthy weatherData) then ret None else
  historical <- get "historical" weatherData ;;
  if negb (Js.truthy historical) then ret None else
  dayData <- get date historical ;;
  if negb (Js.truthy dayData) then ret None else
  loc <- get "location" weatherData ;;
  maxtemp <- get "maxtemp" dayData ;;
  mintemp <- get "mintemp" dayData ;;
  avgtemp <- get "avgtemp" dayData ;;
  avghumidity <- get "avghumidity" dayData ;;
  ret (Some
    (Elem "div" (Some "glass-card")
       [ Elem "h2" (Some "card-title") [Text "Historical Weather"];
         Elem "p" (Some "location-label")
           [ Expr (Js.optional_prop "name" loc); Text ", ";
             Expr (Js.optional_prop "country" loc) ];
         Elem "p" (Some "date-label") [Expr (Some (JString date))];
         Elem "div" (Some "historical-grid")
           [ metric "Max Temp" maxtemp "°C";
             metric "Min Temp" mintemp "°C";
             metric "Avg Temp" avgtemp "°C";
             metric "Avg Humidity" avghumidity "%" ] ])).

Definition renderMarine (weatherData : Js.value) : result (option node) :=
  if negb (Js.truthy weatherData) then ret None else
  entries <- get "marine" weatherData ;;
  if negb (Js.truthy entries) then ret None else
  marine <- get0 entries ;;
  if negb (Js.truthy marine) then ret None else
  lat <- get "lat" marine ;;
  lon <- get "lon" marine ;;
  water_temp_c <- get "water_temp_c" marine ;;
  swell_height_m <- get "swell_height_m" marine ;;
  swell_period_secs <- get "swell_period_secs" marine ;;
  wave_height_m <- get "wave_height_m" marine ;;
  ret (Some
    (Elem "div" (Some "glass-card")
       [ Elem "h2" (Some "card-title") [Text "Marine Weather"];
         Elem "p" (Some "location-label")
           [Text "Lat: "; Expr lat; Text ", Lon: "; Expr lon];
         Elem "div" (Some "historical-grid")
           [ metric "Water Temp" water_temp_c "°C";
             metric "Swell Height" swell_height_m " m";
             metric "Swell Period" swell_period_secs " s";
             metric "Wave Height" wave_height_m " m" ] ])).

(** [renderPanel], on the state of the render. *)
Definition renderPanel (s : AppState) : result (option node) :=
  if negb (Js.truthy (weatherData s)) then ret None
  else if String.eqb (mode s) MODES.CURRENT then renderCurrent (weatherData s)
  else if String.eqb (mode s) MODES.HISTORICAL then
    renderHistorical (weatherData s) (date s)
  else if String.eqb (mode s) MODES.MARINE then renderMarine (weatherData s)
  else ret None.

(** [disabled={isLoading}] of the submit control. *)
Definition submit_disabled (s : AppState) : bool := isLoading s.

(** The text of the submit control. *)
Definition submit_label (s : AppState) : string :=
  if isLoading s then "Fetching..." else "Get Weather".

(** [{error && <p className="error-text">{error}</p>}] *)
Definition error_text (s : AppState) : option node :=
  if Bytes.truthy (error s)
  then Some (Elem "p" (Some "error-text") [Expr (Some (JString (error s)))])
  else None.

(** The [className] of the mode button that passes [button] to
    [handleModeChange]. *)
Definition pill_className (button : string) (s : AppState) : string :=
  "pill-button " ++ (if String.eqb (mode s) button then "pill-button-active" else "").

(** The text React puts in the document for a child value: strings and
    numbers as they are, nothing for booleans, [null] and [undefined],
    the items of an array one after the other; [None] for an object,
    which React refuses as a child. *)
Fixpoint child_text (j : json) : option string :=
  match j with
  | JNull | JBool _ => Some ""
  | JNumber text => Some text
  | JString s => Some s
  | JArray items =>
      (fix all_items (l : list json) : option string :=
         match l with
         | [] => Some ""
         | x :: rest =>
             match child_text x, all_items rest with
             | Some a, Some b => Some (a ++ b)
             | _, _ => None
             end
         end) items
  | JObject _ => None
  end.

(** The text content of a rendered tree. *)
Fixpoint textContent (n : node) : option string :=
  match n with
  | Text s => Some s
  | Expr None => Some ""
  | Expr (Some j) => child_text j
  | Elem _ _ children =>
      (fix all_children (l : list node) : option string :=
         match l with
         | [] => Some ""
         | c :: rest =>
             match textContent c, all_children rest with
             | Some a, Some b => Some (a ++ b)
             | _, _ => None
             end
         end) children
  end.

(** The elements of a tree with the given [className], in document
    order. *)
Fixpoint by_class (cls : string) (n : node) : list node :=
  match n with
  | Text _ | Expr _ => []
  | Elem _ className children =>
      ((if match className with
            | Some c => String.eqb c cls
            | None => false
            end
        then [n] else [])
       ++ (fix in_children (l : list node) : list node :=
             match l with
             | [] => []
             | c :: rest => by_class cls c ++ in_children rest
             end) children)%list
  end.

End View.

(** The message [catch] stores for a thrown one. *)
Definition shown (message : string) : string :=
  if Bytes.truthy message then message else Messages.generic_fallback.

Section App.

(** [import.meta.env.VITE_WEATHERSTACK_API_KEY] *)
Variable API_KEY : option string.

(** The message of the TypeError that reading a property of [null]
    raises; its text is the engine's. *)
Variable null_read_message : string.

(** The message of the TypeError that a failed conversion to a string
    raises; its text is the engine's too. *)
Variable to_primitive_message : string.

(** [!API_KEY] is false *)
Definition has_key : bool :=
  match API_KEY with
  | Some k => Bytes.truthy k
  | None => false
  end.

(** The [try] block after the request was sent: what it throws ([inl],
    the message of the error) or the document it accepts ([inr]).
    [new Error(x)] converts [x] to a string first; when that conversion
    throws, its TypeError is what the block throws. *)
Definition try_block (r : fetch_outcome) : string + json :=
  match r with
  | FetchRejected message => inl message
  | FetchResolved _ (BodyRejected message) => inl message
  | FetchResolved _ (BodyParsed JNull) => inl null_read_message
  | FetchResolved ok (BodyParsed j) =>
      if (negb ok || Js.truthy (Js.prop "error" j))%bool then
        let info := Js.optional_prop "info" (Js.prop "error" j) in
        match Js.ToString
                (if Js.truthy info
                 then match info with Some i => i | None => JNull end
                 else JString Messages.upstream_fallback)
        with
        | Some message => inl message
        | None => inl to_primitive_message
        end
      else inr j
  end.

(** The rest of [handleSubmit] once the request settles: the end of the
    [try] block, [catch] and [finally]. *)
Definition afterFetch (r : fetch_outcome) : action :=
  match try_block r with
  | inr j => setWeatherData (Some j) (setIsLoading false done)
  | inl message => setError (shown message) (setIsLoading false done)
  end.

(** [handleSubmit], closed over the [mode], [location] and [date] of the
    render [s] it was created in. [e.preventDefault()] touches no cell of
    the state and is left out; [buildUrl] is called inside the [try]
    block and throws nothing. *)
Definition handleSubmit (s : AppState) : action :=
  if negb has_key then setError Messages.missing_key done
  else if negb (Bytes.truthy (Trim.trim (location s))) then
    setError Messages.missing_location done
  else if (String.eqb (mode s) MODES.HISTORICAL
           && negb (Bytes.truthy (date s)))%bool then
    setError Messages.missing_date done
  else
    setIsLoading true
      (setError ""
         (setWeatherData None
            (fetch (buildUrl API_KEY (mode s) (Trim.trim (location s)) (date s))
               afterFetch))).

(** The message with which [handleSubmit] turns a submission down before
    any request, [None] when it sends one: its three guards, in order. *)
Definition refusal (s : AppState) : option string :=
  if negb has_key then Some Messages.missing_key
  else if negb (Bytes.truthy (Trim.trim (location s))) then
    Some Messages.missing_location
  else if (String.eqb (mode s) MODES.HISTORICAL
           && negb (Bytes.truthy (date s)))%bool then
    Some Messages.missing_date
  else None.

(* ================================================================== *)
(** ** The page: user events and network settlements                   *)
(* ================================================================== *)

(** The rendered state together with the requests that were sent and
    have not settled, each with the continuation waiting for it. *)
Record World : Type := mkWorld {
  ui : AppState;
  inflight : list (string * (fetch_outcome -> action))
}.

Inductive event : Type :=
| ClickMode (m : string)
| InputLocation (v : string)
| InputDate (v : string)
| ClickQuickLocation (city : string)
| SubmitForm
| Settle (i : nat) (r : fetch_outcome).

Definition mode_buttons : list string :=
  [MODES.CURRENT; MODES.HISTORICAL; MODES.MARINE].

Definition quick_locations : list string :=
  ["London"; "New York"; "Tokyo"; "Sydney"].

Definition among (x : string) (l : list string) : bool :=
  existsb (String.eqb x) l.

(** Removes the element at index [i]. *)
Fixpoint drop_nth {A : Type} (i : nat) (l : list A) : list A :=
  match l, i with
  | [], _ => []
  | _ :: t, O => t
  | h :: t, S j => h :: drop_nth j t
  end.

(** Runs a handler on the page; a request it sends joins the ones in
    flight. *)
Definition dispatch (a : action) (w : World) : World :=
  match run a (ui w) with
  | (s, Returned) => mkWorld s (inflight w)
  | (s, Awaiting url k) => mkWorld s (inflight w ++ [(url, k)])
  end.

(** One event, [None] when the page does not offer it: a mode button
    that is not rendered, the date field outside historical mode, the
    submit control while it is disabled, a settlement of no request. *)
Definition step (w : World) (e : event) : option World :=
  match e with
  | ClickMode m =>
      if among m mode_buttons then Some (dispatch (handleModeChange m) w)
      else None
  | InputLocation v => Some (dispatch (setLocation v done) w)
  | InputDate v =>
      if String.eqb (mode (ui w)) MODES.HISTORICAL
      then Some (dispatch (setDate v done) w) else None
  | ClickQuickLocation city =>
      if among city quick_locations
      then Some (dispatch (setLocation city done) w) else None
  | SubmitForm =>
      if isLoading (ui w) then None
      else Some (dispatch (handleSubmit (ui w)) w)
  | Settle i r =>
      match nth_error (inflight w) i with
      | Some (_, k) => Some (dispatch (k r) (mkWorld (ui w) (drop_nth i (inflight w))))
      | None => None
      end
  end.

Definition initialWorld : World := mkWorld initialState [].

Fixpoint steps (w : World) (es : list event) : option World :=
  match es with
  | [] => Some w
  | e :: rest =>
      match step w e with
      | Some w' => steps w' rest
      | None => None
      end
  end.

(** The worlds the page can be in. *)
Inductive reachable : World -> Prop :=
| reachable_initial : reachable initialWorld
| reachable_step : forall w e w',
    reachable w -> step w e = Some w' -> reachable w'.

(** One whole request cycle from [s] with nothing in between: the state
    when [handleSubmit] returns or suspends, and the state once the
    request, if one was sent, has settled as [r]. *)
Definition cycle (s : AppState) (r : fetch_outcome) : AppState :=
  match run (handleSubmit s) s with
  | (s1, Returned) => s1
  | (s1, Awaiting _ k) => fst (run (k r) s1)
  end.

(** The event is the settlement of a request. *)
Definition is_settle (e : event) : bool :=
  match e with
  | Settle _ _ => true
  | _ => false
  end.

(** What holds of every world the page reaches: nothing is in flight and
    the page is not loading, or one request is, its continuation is
    [afterFetch], and the page is loading with no error and no result. *)
Definition invariant (w : World) : Prop :=
  (inflight w = [] /\ isLoading (ui w) = false)
  \/ (exists url,
        inflight w = [(url, afterFetch)]
        /\ isLoading (ui w) = true
        /\ error (ui w) = ""
        /\ weatherData (ui w) = None).

(* ================================================================== *)
(** * Properties                                                       *)
(* ================================================================== *)

(** ** Trimming *)

Section TrimFacts.
Import Bytes Trim.

Lemma trimStart_white_space (w s : string) :
  In w white_space -> trimStart (w ++ s) = trimStart s.
Proof.
  intros H. cbv in H.
  repeat (destruct H as [<- | H]; [reflexivity|]).
  destruct H.
Qed.

Lemma trimStart_blank (s : string) : blank s -> trimStart s = "".
Proof.
  induction 1 as [|w s Hw _ IH]; [reflexivity|].
  now rewrite trimStart_white_space.
Qed.

Lemma trim_blank (s : string) : blank s -> trim s = "".
Proof. intros H. unfold trim. now rewrite trimStart_blank. Qed.

(** The converse: [trim] leaves nothing of blank strings only. *)

Ltac in_white_space :=
  solve [cbv; repeat (first [left; reflexivity | right])].

Lemma ws1_white_space (a : ascii) :
  ws1 a = true -> In (String a "") white_space.
Proof.
  destruct a as [[] [] [] [] [] [] [] []]; intros H; cbv in H;
    try discriminate H; in_white_space.
Qed.

Lemma ws2_white_space (a b : ascii) :
  ws2 a b = true -> In (String a (String b "")) white_space.
Proof.
  unfold ws2. intros H. apply andb_prop in H as [Ha Hb].
  apply Ascii.eqb_eq in Ha, Hb. subst. in_white_space.
Qed.

Lemma ws3_white_space (a b c : ascii) :
  ws3 a b c = true -> In (String a (String b (String c ""))) white_space.
Proof.
  unfold ws3. intros H.
  repeat match type of H with
         | (_ || _)%bool = true => apply orb_prop in H as [H | H]
         end;
    repeat match goal with
           | H : (_ && _)%bool = true |- _ => apply andb_prop in H as [? ?]
           | H : Ascii.eqb _ _ = true |- _ => apply Ascii.eqb_eq in H; subst
           end;
    try in_white_space.
  destruct c as [[] [] [] [] [] [] [] []];
    match goal with H : _ = true |- _ => cbv in H; try discriminate H end;
    in_white_space.
Qed.

Lemma white_space_length (w : string) :
  In w white_space -> 1 <= String.length w.
Proof.
  intros H. cbv in H.
  repeat (destruct H as [<- | H]; [cbn; lia|]).
  destruct H.
Qed.

Lemma length_app (a b : string) :
  String.length (a ++ b) = String.length a + String.length b.
Proof. induction a as [|x a IH]; cbn; [reflexivity | now rewrite IH]. Qed.

(** One step of [trimStart]: it stops, or it drops one white space
    character and goes on. *)
Lemma trimStart_step (s : string) :
  trimStart s = s
  \/ exists w r, In w white_space /\ s = w ++ r /\ trimStart s = trimStart r.
Proof.
  destruct s as [|a r1]; [now left|]. cbn [trimStart].
  destruct (ws1 a) eqn:H1.
  { right. exists (String a ""), r1. auto using ws1_white_space. }
  destruct r1 as [|b r2]; [now left|].
  destruct (ws2 a b) eqn:H2.
  { right. exists (String a (String b "")), r2. auto using ws2_white_space. }
  destruct r2 as [|c r3]; [now left|].
  destruct (ws3 a b c) eqn:H3; [|now left].
  right. exists (String a (String b (String c ""))), r3.
  auto using ws3_white_space.
Qed.

Lemma trimStart_empty_blank_upto (n : nat) :
  forall s, String.length s <= n -> trimStart s = "" -> blank s.
Proof.
  induction n as [|n IH]; intros s Hlen Hs.
  - destruct s; [constructor | cbn in Hlen; lia].
  - destruct (trimStart_step s) as [Hstop | (w & r & Hw & -> & Hgo)].
    + rewrite Hstop in Hs. subst s. constructor.
    + constructor; [assumption|]. apply IH.
      * rewrite length_app in Hlen.
        pose proof (white_space_length w Hw). lia.
      * now rewrite <- Hgo.
Qed.

Lemma trimStart_idempotent_upto (n : nat) :
  forall s, String.length s <= n -> trimStart (trimStart s) = trimStart s.
Proof.
  induction n as [|n IH]; intros s Hlen.
  - destruct s; [reflexivity | cbn in Hlen; lia].
  - destruct (trimStart_step s) as [Hstop | (w & r & Hw & -> & Hgo)].
    + now rewrite !Hstop.
    + rewrite Hgo. apply IH.
      rewrite length_app in Hlen.
      pose proof (white_space_length w Hw). lia.
Qed.

Lemma trim_empty_blank (s : string) : trim s = "" -> blank s.
Proof.
  unfold trim. intros H.
  apply (trimStart_empty_blank_upto (String.length s)); [lia|].
  pose proof (trimStart_idempotent_upto (String.length s) s (Nat.le_refl _)) as Hid.
  destruct (trimStart s) as [|a r]; [reflexivity|].
  cbn [trimEnd] in H. rewrite Hid in H. discriminate H.
Qed.

(** [!location.trim()] holds of the blank strings and of no other. *)
Lemma trim_empty_iff_blank (s : string) : trim s = "" <-> blank s.
Proof. split; [apply trim_empty_blank | apply trim_blank]. Qed.

End TrimFacts.

(** ** The handlers *)

Lemma handleModeChange_run (nextMode : string) (s : AppState) :
  run (handleModeChange nextMode) s
  = (mkState nextMode (location s) (date s) None (isLoading s) "", Returned).
Proof. reflexivity. Qed.

(** What [handleSubmit] does up to its return or its suspension. *)
Lemma handleSubmit_run (s : AppState) :
  run (handleSubmit s) s =
  match refusal s with
  | Some m => (with_error s m, Returned)
  | None =>
      (loading s,
       Awaiting (buildUrl API_KEY (mode s) (Trim.trim (location s)) (date s))
         afterFetch)
  end.
Proof.
  unfold handleSubmit, refusal.
  destruct (negb has_key); [reflexivity|].
  destruct (negb (Bytes.truthy (Trim.trim (location s)))); [reflexivity|].
  destruct (String.eqb (mode s) MODES.HISTORICAL && negb (Bytes.truthy (date s)))%bool;
    reflexivity.
Qed.

Lemma handleSubmit_fetches (answer : string -> fetch_outcome) (s : AppState) :
  fetches answer (handleSubmit s) =
  match refusal s with
  | Some _ => 0
  | None => 1
  end.
Proof.
  unfold handleSubmit, refusal.
  destruct (negb has_key); [reflexivity|].
  destruct (negb (Bytes.truthy (Trim.trim (location s)))); [reflexivity|].
  destruct (String.eqb (mode s) MODES.HISTORICAL && negb (Bytes.truthy (date s)))%bool;
    [reflexivity|].
  cbn [fetches]. unfold afterFetch.
  destruct (try_block _); reflexivity.
Qed.

Lemma shown_not_empty (message : string) : shown message <> "".
Proof. unfold shown. destruct message; discriminate. Qed.

(** What the continuation does once the request has settled. *)
Lemma afterFetch_run (r : fetch_outcome) (s : AppState) :
  run (afterFetch r) s =
  match try_block r with
  | inr j =>
      (mkState (mode s) (location s) (date s) (Some j) false (error s), Returned)
  | inl message =>
      (mkState (mode s) (location s) (date s) (weatherData s) false (shown message),
       Returned)
  end.
Proof. unfold afterFetch. destruct (try_block r); reflexivity. Qed.

Lemma cycle_refused (s : AppState) (r : fetch_outcome) (m : string) :
  refusal s = Some m -> cycle s r = with_error s m.
Proof. intros H. unfold cycle. now rewrite handleSubmit_run, H. Qed.

Lemma cycle_sent (s : AppState) (r : fetch_outcome) :
  refusal s = None ->
  cycle s r =
  match try_block r with
  | inr j => mkState (mode s) (location s) (date s) (Some j) false ""
  | inl message =>
      mkState (mode s) (location s) (date s) None false (shown message)
  end.
Proof.
  intros H. unfold cycle. rewrite handleSubmit_run, H, afterFetch_run.
  destruct (try_block r); reflexivity.
Qed.

Lemma refusal_not_empty (s : AppState) (m : string) :
  refusal s = Some m -> m <> "".
Proof.
  unfold refusal.
  destruct (negb has_key); [intros [= <-]; discriminate|].
  destruct (negb (Bytes.truthy (Trim.trim (location s)))); [intros [= <-]; discriminate|].
  destruct (String.eqb (mode s) MODES.HISTORICAL && negb (Bytes.truthy (date s)))%bool;
    [intros [= <-]; discriminate | discriminate].
Qed.

(** C3: from every state whose location field is empty or white space
    only, submitting makes no network call and stores a message in the
    error state: the one asking for a location, or, when the credential
    is missing, the one asking for the key (the first guard). *)
Theorem submit_blank_location (s : AppState) :
  Trim.blank (location s) ->
  run (handleSubmit s) s
  = (with_error s (if has_key then Messages.missing_location
                   else Messages.missing_key), Returned)
  /\ error (fst (run (handleSubmit s) s)) <> ""
  /\ forall answer, fetches answer (handleSubmit s) = 0.
Proof.
  intros Hblank.
  assert (Href : refusal s = Some (if has_key then Messages.missing_location
                                   else Messages.missing_key)).
  { unfold refusal. destruct has_key; [|reflexivity].
    cbn [negb]. now rewrite (trim_blank _ Hblank). }
  rewrite handleSubmit_run, Href. split; [reflexivity|]. split.
  - cbn [fst with_error error]. destruct has_key; discriminate.
  - intros answer. now rewrite handleSubmit_fetches, Href.
Qed.

(** C4: from every state in historical mode whose date is empty,
    submitting makes no network call and stores a message in the error
    state: the one asking for a date, or the one of an earlier guard
    (missing key, blank location) when that guard fires first. *)
Theorem submit_historical_without_date (s : AppState) :
  mode s = MODES.HISTORICAL -> date s = "" ->
  run (handleSubmit s) s
  = (with_error s
       (if has_key then
          if Bytes.truthy (Trim.trim (location s)) then Messages.missing_date
          else Messages.missing_location
        else Messages.missing_key), Returned)
  /\ error (fst (run (handleSubmit s) s)) <> ""
  /\ forall answer, fetches answer (handleSubmit s) = 0.
Proof.
  intros Hmode Hdate.
  assert (Href : refusal s
                 = Some (if has_key then
                           if Bytes.truthy (Trim.trim (location s))
                           then Messages.missing_date
                           else Messages.missing_location
                         else Messages.missing_key)).
  { unfold refusal. rewrite Hmode, Hdate.
    destruct has_key; [|reflexivity].
    destruct (Bytes.truthy (Trim.trim (location s))); reflexivity. }
  rewrite handleSubmit_run, Href. split; [reflexivity|]. split.
  - cbn [fst with_error error].
    destruct has_key; [|discriminate].
    destruct (Bytes.truthy (Trim.trim (location s))); discriminate.
  - intros answer. now rewrite handleSubmit_fetches, Href.
Qed.

(** C5, amended: every error path ends with Loading over and makes no
    retry. An upstream or transport/parse error ends the cycle with no
    result, [isLoading] false, an error message shown, and exactly one
    network call made. A configuration or validation error makes no
    network call and only stores its message: [isLoading] is false
    afterwards, as it was when the submission was offered (the submit
    control is disabled while loading), and the prior result stays as
    it was. *)
Theorem error_paths (s : AppState) (r : fetch_outcome) :
  (forall m, refusal s = Some m ->
     cycle s r = with_error s m
     /\ m <> ""
     /\ (forall answer, fetches answer (handleSubmit s) = 0)
     /\ (forall w w', ui w = s -> step w SubmitForm = Some w' ->
           ui w' = with_error s m
           /\ isLoading (ui w') = false
           /\ inflight w' = inflight w))
  /\ (forall m, refusal s = None -> try_block r = inl m ->
        weatherData (cycle s r) = None
        /\ isLoading (cycle s r) = false
        /\ error (cycle s r) = shown m
        /\ error (cycle s r) <> ""
        /\ fetches (fun _ => r) (handleSubmit s) = 1).
Proof.
  split.
  - intros m Href. split; [now apply cycle_refused|].
    split; [now apply refusal_not_empty with s|].
    split; [intros answer; now rewrite handleSubmit_fetches, Href|].
    intros w w' Hs Hstep. subst s. cbn [step] in Hstep.
    destruct (isLoading (ui w)) eqn:Hl; [discriminate|].
    injection Hstep as <-. unfold dispatch.
    rewrite handleSubmit_run, Href. cbn [ui inflight with_error isLoading].
    now rewrite Hl.
  - intros m Href Hthrown.
    rewrite (cycle_sent s r Href), Hthrown, handleSubmit_fetches, Href.
    cbn [weatherData isLoading error].
    repeat split; auto using shown_not_empty.
Qed.

Lemma try_block_embedded_error (ok : bool) (j : json) :
  Js.truthy (Js.prop "error" j) = true ->
  try_block (FetchResolved ok (BodyParsed j))
  = match Js.ToString
            (if Js.truthy (Js.optional_prop "info" (Js.prop "error" j))
             then match Js.optional_prop "info" (Js.prop "error" j) with
                  | Some i => i
                  | None => JNull
                  end
             else JString Messages.upstream_fallback)
    with
    | Some message => inl message
    | None => inl to_primitive_message
    end.
Proof.
  intros H. unfold try_block.
  destruct j; try discriminate; rewrite H, orb_true_r; reflexivity.
Qed.

(** C6, amended: when the request of a cycle settles with a parsed body
    whose top-level [error] member is truthy (an object, as in the
    upstream error payload), whatever the HTTP status, the cycle ends
    Failed: no result, Loading over, and as message the body's
    [error.info] when that is a non-empty string, the generic fallback
    when [error.info] is absent or falsy. *)
Theorem embedded_error (s : AppState) (ok : bool) (j : json) :
  refusal s = None ->
  Js.truthy (Js.prop "error" j) = true ->
  weatherData (cycle s (FetchResolved ok (BodyParsed j))) = None
  /\ isLoading (cycle s (FetchResolved ok (BodyParsed j))) = false
  /\ error (cycle s (FetchResolved ok (BodyParsed j))) <> ""
  /\ (forall info,
        Js.optional_prop "info" (Js.prop "error" j) = Some (JString info) ->
        info <> "" ->
        error (cycle s (FetchResolved ok (BodyParsed j))) = info)
  /\ (Js.truthy (Js.optional_prop "info" (Js.prop "error" j)) = false ->
        error (cycle s (FetchResolved ok (BodyParsed j)))
        = Messages.upstream_fallback).
Proof.
  intros Href Herr.
  rewrite (cycle_sent s _ Href), (try_block_embedded_error ok j Herr).
  split; [destruct (Js.ToString _); reflexivity|].
  split; [destruct (Js.ToString _); reflexivity|].
  split; [destruct (Js.ToString _); apply shown_not_empty|]. split.
  - intros info Hinfo Hne. rewrite Hinfo.
    destruct info as [|c info]; [congruence|]. reflexivity.
  - intros Hfalsy. rewrite Hfalsy. reflexivity.
Qed.

(** C7: from every state, whatever its result and error, switching the
    mode leaves no result and an empty error. *)
Theorem handleModeChange_clears (nextMode : string) (s : AppState) :
  weatherData (fst (run (handleModeChange nextMode) s)) = None
  /\ error (fst (run (handleModeChange nextMode) s)) = ""
  /\ snd (run (handleModeChange nextMode) s) = Returned.
Proof. rewrite handleModeChange_run. repeat split. Qed.

(** C10: switching the mode changes the mode, result and error cells
    only: the location and date the user typed, and [isLoading], are as
    before. *)
Theorem handleModeChange_frame (nextMode : string) (s : AppState) :
  location (fst (run (handleModeChange nextMode) s)) = location s
  /\ date (fst (run (handleModeChange nextMode) s)) = date s
  /\ isLoading (fst (run (handleModeChange nextMode) s)) = isLoading s
  /\ mode (fst (run (handleModeChange nextMode) s)) = nextMode.
Proof. rewrite handleModeChange_run. repeat split. Qed.

(** ** The page *)

Lemma invariant_initial : invariant initialWorld.
Proof. left. split; reflexivity. Qed.

Lemma invariant_step (w w' : World) (e : event) :
  invariant w -> step w e = Some w' -> invariant w'.
Proof.
  intros Hinv Hstep. destruct w as [s fl]. unfold invariant in *. cbn [ui inflight] in *.
  destruct e as [m | v | v | city | | i r]; cbn [step ui inflight] in Hstep.
  - destruct (among m mode_buttons); [|discriminate].
    injection Hstep as <-. unfold dispatch. cbn [ui inflight].
    rewrite handleModeChange_run. cbn [ui inflight isLoading error weatherData].
    destruct Hinv as [[-> Hl] | (url & -> & Hl & _ & _)].
    + left. now split.
    + right. exists url. repeat split; assumption.
  - injection Hstep as <-. unfold dispatch. cbn.
    destruct Hinv as [[-> Hl] | (url & -> & Hl & He & Hd)].
    + left. now split.
    + right. exists url. repeat split; assumption.
  - destruct (String.eqb (mode s) MODES.HISTORICAL); [|discriminate].
    injection Hstep as <-. unfold dispatch. cbn.
    destruct Hinv as [[-> Hl] | (url & -> & Hl & He & Hd)].
    + left. now split.
    + right. exists url. repeat split; assumption.
  - destruct (among city quick_locations); [|discriminate].
    injection Hstep as <-. unfold dispatch. cbn.
    destruct Hinv as [[-> Hl] | (url & -> & Hl & He & Hd)].
    + left. now split.
    + right. exists url. repeat split; assumption.
  - destruct (isLoading s) eqn:Hl; [discriminate|].
    injection Hstep as <-.
    destruct Hinv as [[-> _] | (url & _ & Habs & _)]; [|discriminate].
    unfold dispatch. cbn [ui inflight]. rewrite handleSubmit_run.
    destruct (refusal s) as [m|].
    + left. cbn. now split.
    + right. eexists. cbn. repeat split; reflexivity.
  - destruct Hinv as [[-> _] | (url & -> & Hl & He & Hd)].
    + destruct i; discriminate.
    + destruct i as [|i]; [|destruct i; discriminate].
      cbn in Hstep. injection Hstep as <-.
      unfold dispatch. cbn [ui inflight]. rewrite afterFetch_run.
      left. destruct (try_block r); cbn; now split.
Qed.

Lemma reachable_invariant (w : World) : reachable w -> invariant w.
Proof.
  induction 1 as [|w e w' _ IH Hstep].
  - apply invariant_initial.
  - exact (invariant_step w w' e IH Hstep).
Qed.

Lemma steps_reachable (es : list event) (w w' : World) :
  reachable w -> steps w es = Some w' -> reachable w'.
Proof.
  revert w. induction es as [|e es IH]; intros w Hw Hsteps; cbn in Hsteps.
  - now injection Hsteps as <-.
  - destruct (step w e) as [w1|] eqn:Hstep; [|discriminate].
    apply (IH w1); [|assumption].
    exact (reachable_step w e w1 Hw Hstep).
Qed.

(** C8: in every world the page can reach, at most one request is in
    flight and [isLoading] is true exactly while one is: from the
    submission that sent it to its settlement; and every settlement
    leaves Loading over and at most one of error and result set. *)
Theorem request_cycle (w : World) :
  reachable w ->
  List.length (inflight w) <= 1
  /\ (isLoading (ui w) = true <-> inflight w <> [])
  /\ (forall i r w', step w (Settle i r) = Some w' ->
        isLoading (ui w') = false
        /\ inflight w' = []
        /\ (error (ui w') = "" \/ weatherData (ui w') = None)).
Proof.
  intros Hreach. pose proof (reachable_invariant w Hreach) as Hinv.
  destruct w as [s fl]. unfold invariant in Hinv. cbn [ui inflight] in *.
  destruct Hinv as [[-> Hl] | (url & -> & Hl & He & Hd)].
  - split; [cbn; lia|]. split.
    + rewrite Hl. split; [discriminate | congruence].
    + intros i r w' Hstep. destruct i; discriminate.
  - split; [cbn; lia|]. split.
    + rewrite Hl. split; [discriminate | reflexivity].
    + intros i r w' Hstep. cbn [step ui inflight] in Hstep.
      destruct i as [|i]; [|destruct i; discriminate].
      cbn in Hstep. injection Hstep as <-.
      unfold dispatch. cbn [ui inflight]. rewrite afterFetch_run.
      destruct (try_block r); cbn; repeat split; auto.
Qed.

End App.

(** ** Strings *)

Section BytesFacts.
Import Bytes.

Lemma append_assoc (a b c : string) : (a ++ b) ++ c = a ++ (b ++ c).
Proof. induction a as [|x a IH]; simpl; [reflexivity | now rewrite IH]. Qed.

Lemma all_app (p : ascii -> bool) (a b : string) :
  all p (a ++ b) = (all p a && all p b)%bool.
Proof.
  induction a as [|x a IH]; simpl; [reflexivity|].
  rewrite IH. now rewrite andb_assoc.
Qed.

Lemma break_none (p : ascii -> bool) (a : string) :
  all (fun c => negb (p c)) a = true -> break p a = (a, "").
Proof.
  induction a as [|x a IH]; simpl; [reflexivity|].
  intros H. apply andb_prop in H as [Hx Ha].
  apply negb_true_iff in Hx. rewrite Hx, (IH Ha). reflexivity.
Qed.

Lemma break_at (p : ascii -> bool) (a : string) (d : ascii) (b : string) :
  all (fun c => negb (p c)) a = true -> p d = true ->
  break p (a ++ String d b) = (a, String d b).
Proof.
  intros Ha Hd. induction a as [|x a IH]; simpl.
  - now rewrite Hd.
  - simpl in Ha. apply andb_prop in Ha as [Hx Ha].
    apply negb_true_iff in Hx. rewrite Hx, (IH Ha). reflexivity.
Qed.

Lemma split_on_none (sep : ascii) (a : string) :
  all (fun c => negb (Ascii.eqb c sep)) a = true -> split_on sep a = [a].
Proof.
  induction a as [|x a IH]; simpl; [reflexivity|].
  intros H. apply andb_prop in H as [Hx Ha].
  apply negb_true_iff in Hx. rewrite Hx, (IH Ha). reflexivity.
Qed.

Lemma split_on_at (sep : ascii) (a b : string) :
  all (fun c => negb (Ascii.eqb c sep)) a = true ->
  split_on sep (a ++ String sep b) = a :: split_on sep b.
Proof.
  induction a as [|x a IH]; simpl; intros H.
  - now rewrite Ascii.eqb_refl.
  - apply andb_prop in H as [Hx Ha].
    apply negb_true_iff in Hx. rewrite Hx, (IH Ha). reflexivity.
Qed.

End BytesFacts.

(** ** The query-string codec *)

Section CodecFacts.
Import Bytes UrlEncoded.

(** Case analysis on the 256 values of a byte. *)
Ltac by_byte c := destruct c as [[] [] [] [] [] [] [] []]; reflexivity.

Lemma decode_encode_byte (c : ascii) (r : string) :
  decode (encode_byte c ++ r) = String c (decode r).
Proof. by_byte c. Qed.

Lemma decode_encode (s : string) : decode (encode s) = s.
Proof.
  induction s as [|c s IH]; simpl; [reflexivity|].
  now rewrite decode_encode_byte, IH.
Qed.

Lemma encode_byte_no_amp (c : ascii) :
  all (fun d => negb (Ascii.eqb d "&")) (encode_byte c) = true.
Proof. by_byte c. Qed.

Lemma encode_byte_no_eq (c : ascii) :
  all (fun d => negb (Ascii.eqb "=" d)) (encode_byte c) = true.
Proof. by_byte c. Qed.

Lemma encode_byte_no_hash (c : ascii) :
  all (fun d => negb (Ascii.eqb "#" d)) (encode_byte c) = true.
Proof. by_byte c. Qed.

Lemma encode_avoids (p : ascii -> bool) :
  (forall c, all p (encode_byte c) = true) ->
  forall s, all p (encode s) = true.
Proof.
  intros Hp s. induction s as [|c s IH]; simpl; [reflexivity|].
  now rewrite all_app, Hp, IH.
Qed.

Lemma tuple_no_amp (nv : string * string) :
  all (fun d => negb (Ascii.eqb d "&")) (tuple nv) = true.
Proof.
  unfold tuple. rewrite !all_app.
  rewrite !(encode_avoids _ encode_byte_no_amp). reflexivity.
Qed.

Lemma tuple_no_hash (nv : string * string) :
  all (fun d => negb (Ascii.eqb "#" d)) (tuple nv) = true.
Proof.
  unfold tuple. rewrite !all_app.
  rewrite !(encode_avoids _ encode_byte_no_hash). reflexivity.
Qed.

Lemma tuple_truthy (nv : string * string) : truthy (tuple nv) = true.
Proof. unfold tuple. destruct (encode (fst nv)); reflexivity. Qed.

Lemma parse_tuple_tuple (nv : string * string) : parse_tuple (tuple nv) = nv.
Proof.
  destruct nv as [n v]. unfold parse_tuple, tuple. simpl fst; simpl snd.
  change ("=" ++ encode v) with (String "=" (encode v)).
  rewrite break_at.
  - now rewrite !decode_encode.
  - apply (encode_avoids _ encode_byte_no_eq).
  - reflexivity.
Qed.

Lemma serialize_cons (nv : string * string) (rest : list (string * string)) :
  serialize (nv :: rest) =
  match rest with
  | [] => tuple nv
  | _ :: _ => tuple nv ++ String "&" (serialize rest)
  end.
Proof. destruct rest; reflexivity. Qed.

(** Reading a serialised list back gives the list. *)
Lemma parse_serialize (l : list (string * string)) : parse (serialize l) = l.
Proof.
  induction l as [|nv rest IH]; [reflexivity|].
  rewrite serialize_cons. destruct rest as [|nv' rest'].
  - unfold parse. rewrite split_on_none by apply tuple_no_amp.
    cbn [filter]. rewrite tuple_truthy. cbn [map].
    now rewrite parse_tuple_tuple.
  - unfold parse in *. rewrite split_on_at by apply tuple_no_amp.
    cbn [filter]. rewrite tuple_truthy. cbn [map].
    now rewrite parse_tuple_tuple, IH.
Qed.

Lemma serialize_no_hash (l : list (string * string)) :
  all (fun d => negb (Ascii.eqb "#" d)) (serialize l) = true.
Proof.
  induction l as [|nv rest IH]; [reflexivity|].
  rewrite serialize_cons. destruct rest as [|nv' rest'].
  - apply tuple_no_hash.
  - rewrite all_app, tuple_no_hash. cbn [all andb]. exact IH.
Qed.

End CodecFacts.

(** ** The request builder *)

Section BuilderFacts.
Import Bytes.

Lemma buildUrl_shape (API_KEY : option string) (mode location date : string) :
  buildUrl API_KEY mode location date =
  API_BASE_URL ++ "/" ++ endpoint_of mode ++ "?"
  ++ URLSearchParams.toString (params_of API_KEY mode location date).
Proof.
  unfold buildUrl, endpoint_of, params_of.
  destruct (String.eqb mode MODES.MARINE) eqn:Hm.
  - apply String.eqb_eq in Hm. subst mode. reflexivity.
  - destruct (String.eqb mode MODES.HISTORICAL); destruct (truthy date);
      reflexivity.
Qed.

Lemma endpoint_of_cases (mode : string) :
  endpoint_of mode = "marine" \/ endpoint_of mode = "historical"
  \/ endpoint_of mode = "current".
Proof.
  unfold endpoint_of.
  destruct (String.eqb mode MODES.MARINE); [now left|].
  destruct (String.eqb mode MODES.HISTORICAL); [right; now left | right; now right].
Qed.

Lemma components_built (e : string) (p : URLSearchParams.t) :
  e = "marine" \/ e = "historical" \/ e = "current" ->
  Url.components (API_BASE_URL ++ "/" ++ e ++ "?" ++ URLSearchParams.toString p)
  = Some ("api.weatherstack.com", "/" ++ e, "?" ++ URLSearchParams.toString p).
Proof. intros [-> | [-> | ->]]; reflexivity. Qed.

Lemma pathname_built (API_KEY : option string) (mode location date : string) :
  Url.pathname (buildUrl API_KEY mode location date) = Some ("/" ++ endpoint_of mode).
Proof.
  unfold Url.pathname.
  rewrite buildUrl_shape, components_built by apply endpoint_of_cases.
  reflexivity.
Qed.

Lemma origin_built (API_KEY : option string) (mode location date : string) :
  Url.origin (buildUrl API_KEY mode location date) = Some API_BASE_URL.
Proof.
  unfold Url.origin.
  rewrite buildUrl_shape, components_built by apply endpoint_of_cases.
  reflexivity.
Qed.

Lemma searchParams_built (API_KEY : option string) (mode location date : string) :
  Url.searchParams (buildUrl API_KEY mode location date)
  = Some (params_of API_KEY mode location date).
Proof.
  unfold Url.searchParams, Url.query.
  rewrite buildUrl_shape, components_built by apply endpoint_of_cases.
  change ("?" ++ ?q) with (String "?" q). cbv iota beta.
  unfold URLSearchParams.toString.
  rewrite break_none by apply serialize_no_hash.
  cbn [fst]. now rewrite parse_serialize.
Qed.

Lemma param_built (name : string) (API_KEY : option string)
      (mode location date : string) :
  Url.param name (buildUrl API_KEY mode location date)
  = URLSearchParams.getAll name (params_of API_KEY mode location date).
Proof. unfold Url.param. now rewrite searchParams_built. Qed.

Lemma truthy_iff (s : string) : truthy s = true <-> s <> "".
Proof. destruct s; simpl; split; congruence. Qed.

Lemma to_usv_scalar (s : string) :
  Unicode.has_surrogate s = false -> Unicode.to_usv s = s.
Proof.
  induction s as [|a r IH]; [reflexivity|].
  cbn [Unicode.to_usv Unicode.has_surrogate].
  destruct r as [|b [|c r']]; intros H.
  - reflexivity.
  - now rewrite (IH H).
  - apply orb_false_elim in H as [Hs Hr]. now rewrite Hs, (IH Hr).
Qed.

Lemma to_usv_truthy (s : string) :
  Bytes.truthy (Unicode.to_usv s) = Bytes.truthy s.
Proof.
  destruct s as [|a [|b [|c r]]]; try reflexivity.
  cbn [Unicode.to_usv]. destruct (Unicode.surrogate a b c); reflexivity.
Qed.

(** C1, amended: for each of the three modes, every location and every
    date, the URL that [buildUrl] returns has the path of the mode
    ([/current], [/historical] or [/marine]) and carries the query
    parameter [query] exactly once; its value is the location as
    USVString, that is, the given location when it holds no surrogate
    outside a pair, and the location with each such surrogate replaced
    by U+FFFD otherwise. *)
Theorem buildUrl_path_and_query
    (API_KEY : option string) (mode location date : string) :
  In mode [MODES.CURRENT; MODES.HISTORICAL; MODES.MARINE] ->
  Url.pathname (buildUrl API_KEY mode location date) = Some ("/" ++ mode)
  /\ Url.param "query" (buildUrl API_KEY mode location date)
     = [Unicode.to_usv location]
  /\ (Unicode.has_surrogate location = false ->
      Url.param "query" (buildUrl API_KEY mode location date) = [location]).
Proof.
  intros Hmode. rewrite pathname_built, param_built. split.
  { destruct Hmode as [<- | [<- | [<- | []]]]; reflexivity. }
  assert (Hq : URLSearchParams.getAll "query"
                 (params_of API_KEY mode location date)
               = [Unicode.to_usv location]).
  { unfold params_of.
    destruct (String.eqb mode MODES.HISTORICAL && truthy date)%bool; reflexivity. }
  split; [exact Hq|].
  intros Hscalar. now rewrite Hq, (to_usv_scalar _ Hscalar).
Qed.

Lemma buildUrl_path_and_query_witness :
  In "marine" [MODES.CURRENT; MODES.HISTORICAL; MODES.MARINE]
  /\ Url.pathname (buildUrl (Some "k") "marine" "36.96,-122.02" "") = Some "/marine"
  /\ Url.param "query" (buildUrl (Some "k") "marine" "36.96,-122.02" "")
     = ["36.96,-122.02"].
Proof.
  assert (H : In "marine" [MODES.CURRENT; MODES.HISTORICAL; MODES.MARINE])
    by (simpl; right; right; left; reflexivity).
  split; [exact H|].
  destruct (buildUrl_path_and_query (Some "k") "marine" "36.96,-122.02" "" H)
    as (Hpath & _ & Hquery).
  split; [exact Hpath | exact (Hquery eq_refl)].
Defined.

(** C1 does not hold as stated: for the location that is the one
    surrogate U+D800 the value of [query] is U+FFFD, not the location. *)
Lemma lone_surrogate_is_replaced :
  buildUrl (Some "k") "current" (String "237" (String "160" (String "128" ""))) ""
  = "https://api.weatherstack.com/current?access_key=k&query=%EF%BF%BD"
  /\ Url.param "query"
       (buildUrl (Some "k") "current"
          (String "237" (String "160" (String "128" ""))) "")
     = [String "239" (String "191" (String "189" ""))].
Proof. split; reflexivity. Qed.

(** C2: the URL that [buildUrl] returns carries a [historical_date]
    parameter exactly when the mode is historical and the date is not
    empty; in marine and current mode it never does, whatever the date. *)
Theorem historical_date_iff
    (API_KEY : option string) (mode location date : string) :
  (Url.has_param "historical_date" (buildUrl API_KEY mode location date) = true
   <-> mode = MODES.HISTORICAL /\ date <> "")
  /\ Url.has_param "historical_date" (buildUrl API_KEY MODES.MARINE location date) = false
  /\ Url.has_param "historical_date" (buildUrl API_KEY MODES.CURRENT location date) = false.
Proof.
  unfold Url.has_param. rewrite !param_built. unfold params_of.
  split; [|split; [reflexivity|reflexivity]].
  destruct (String.eqb mode MODES.HISTORICAL) eqn:Hm;
    destruct (truthy date) eqn:Hd; simpl.
  - apply String.eqb_eq in Hm. apply truthy_iff in Hd. tauto.
  - split; [discriminate|]. intros [_ Hne]. apply truthy_iff in Hne. congruence.
  - apply String.eqb_neq in Hm. split; [discriminate | tauto].
  - apply String.eqb_neq in Hm. split; [discriminate | tauto].
Qed.

Lemma nth_error_fresh {A : Type} (l : list A) (x : A) :
  nth_error (l ++ [x]) (List.length l) = Some x.
Proof. induction l as [|h t IH]; [reflexivity | exact IH]. Qed.

Lemma put_fresh {A : Type} (l : list A) (x y : A) :
  Machine.put (List.length l) y (l ++ [x]) = (l ++ [y])%list.
Proof. induction l as [|h t IH]; cbn; [reflexivity | now rewrite IH]. Qed.

Lemma nth_error_kept {A : Type} (l : list A) (x o : A) (r : nat) :
  nth_error l r = Some o -> nth_error (l ++ [x]) r = Some o.
Proof.
  revert r. induction l as [|h t IH]; intros [|r] H; try discriminate;
    [exact H | exact (IH r H)].
Qed.

(** [params.set] on the object created last updates that object and
    nothing else. *)
Lemma params_set_fresh
    (h : list Machine.object) (rq : list string)
    (p : URLSearchParams.t) (name value : string) :
  Machine.params_set (List.length h) name value
    (Machine.mkStore (h ++ [Machine.SearchParams p]) rq)
  = Machine.Returns tt
      (Machine.mkStore
         (h ++ [Machine.SearchParams (URLSearchParams.set name value p)]) rq).
Proof.
  unfold Machine.params_set, Machine.bind, Machine.load.
  cbn [Machine.heap]. rewrite nth_error_fresh.
  unfold Machine.write. cbn [Machine.heap Machine.requests].
  now rewrite put_fresh.
Qed.

Lemma params_toString_fresh
    (h : list Machine.object) (rq : list string) (p : URLSearchParams.t) :
  Machine.params_toString (List.length h)
    (Machine.mkStore (h ++ [Machine.SearchParams p]) rq)
  = Machine.Returns (URLSearchParams.toString p)
      (Machine.mkStore (h ++ [Machine.SearchParams p]) rq).
Proof.
  unfold Machine.params_toString, Machine.bind, Machine.load.
  cbn [Machine.heap]. now rewrite nth_error_fresh.
Qed.

(** Run on a store that holds its argument, the builder returns the URL
    of the function [buildUrl] and leaves the store with one more
    object, its [URLSearchParams]. *)
Lemma Machine_buildUrl_runs
    (API_KEY : option string) (w : Machine.store) (arg : nat)
    (mode location date : string) :
  nth_error (Machine.heap w) arg = Some (Machine.Query mode location date) ->
  Machine.buildUrl API_KEY arg w
  = Machine.Returns (buildUrl API_KEY mode location date)
      (Machine.mkStore
         (Machine.heap w
          ++ [Machine.SearchParams (params_of API_KEY mode location date)])
         (Machine.requests w)).
Proof.
  intros Harg. destruct w as [h rq]. cbn [Machine.heap Machine.requests] in *.
  unfold Machine.buildUrl, Machine.new_URLSearchParams.
  unfold Machine.bind at 1. unfold Machine.load at 1.
  cbn [Machine.heap]. rewrite Harg.
  unfold Machine.bind at 1. unfold Machine.alloc.
  cbn [Machine.heap Machine.requests].
  unfold Machine.bind at 1. rewrite params_set_fresh.
  unfold buildUrl, params_of.
  destruct (String.eqb mode MODES.MARINE) eqn:Hm.
  - apply String.eqb_eq in Hm. subst mode.
    unfold Machine.bind at 1. rewrite params_set_fresh.
    unfold Machine.bind at 1. rewrite params_toString_fresh.
    reflexivity.
  - unfold Machine.bind at 1. rewrite params_set_fresh.
    unfold Machine.bind at 1.
    destruct (String.eqb mode MODES.HISTORICAL && truthy date)%bool.
    + rewrite params_set_fresh.
      unfold Machine.bind at 1. rewrite params_toString_fresh. reflexivity.
    + unfold Machine.ret at 1.
      unfold Machine.bind at 1. rewrite params_toString_fresh. reflexivity.
Qed.

(** C9: [buildUrl] is total and pure, and validates nothing. Called
    with the object [{ mode, location, date }], whatever strings the
    three are (the empty location and the empty date included) and
    whether the credential is set, missing or empty, it returns a URL
    and does not throw; it sends no request; it leaves every object
    that was there before the call as it was, its argument included
    (the one object it writes to is the [URLSearchParams] it creates).
    The URL is on the API's origin, at the endpoint of the mode, and
    its query reads back to the credential (empty when missing), the
    location and, in historical mode with a date, the date, each as
    USVString. *)
Theorem buildUrl_total
    (API_KEY : option string) (w : Machine.store) (arg : nat)
    (mode location date : string) :
  nth_error (Machine.heap w) arg = Some (Machine.Query mode location date) ->
  exists url w',
    Machine.buildUrl API_KEY arg w = Machine.Returns url w'
    /\ Machine.requests w' = Machine.requests w
    /\ (forall r o, nth_error (Machine.heap w) r = Some o ->
                    nth_error (Machine.heap w') r = Some o)
    /\ url = buildUrl API_KEY mode location date
    /\ Url.origin url = Some API_BASE_URL
    /\ Url.pathname url
       = Some (if String.eqb mode MODES.MARINE then "/marine"
               else if String.eqb mode MODES.HISTORICAL then "/historical"
               else "/current")
    /\ Url.searchParams url
       = Some (("access_key",
                Unicode.to_usv (match API_KEY with
                                | Some k => k
                                | None => ""
                                end))
               :: ("query", Unicode.to_usv location)
               :: (if (String.eqb mode MODES.HISTORICAL && truthy date)%bool
                   then [("historical_date", Unicode.to_usv date)] else [])).
Proof.
  intros Harg. eexists. eexists.
  split; [exact (Machine_buildUrl_runs API_KEY w arg mode location date Harg)|].
  cbn [Machine.heap Machine.requests].
  split; [reflexivity|].
  split; [intros r o Hr; now apply nth_error_kept|].
  split; [reflexivity|].
  split; [apply origin_built|].
  split.
  { rewrite pathname_built. unfold endpoint_of.
    destruct (String.eqb mode MODES.MARINE); [reflexivity|].
    destruct (String.eqb mode MODES.HISTORICAL); reflexivity. }
  rewrite searchParams_built. unfold params_of, key_or_empty.
  destruct API_KEY as [[|c k]|]; reflexivity.
Qed.

Lemma buildUrl_total_witness :
  exists url w',
    Machine.buildUrl None 1
      (Machine.mkStore
         [Machine.SearchParams [("a", "b")]; Machine.Query "historical" "" ""]
         ["https://example.org/"])
    = Machine.Returns url w'
    /\ Machine.requests w' = ["https://example.org/"]
    /\ nth_error (Machine.heap w') 0 = Some (Machine.SearchParams [("a", "b")])
    /\ nth_error (Machine.heap w') 1 = Some (Machine.Query "historical" "" "")
    /\ url = "https://api.weatherstack.com/historical?access_key=&query=".
Proof.
  destruct (buildUrl_total None
              (Machine.mkStore
                 [Machine.SearchParams [("a", "b")]; Machine.Query "historical" "" ""]
                 ["https://example.org/"])
              1 "historical" "" "" eq_refl)
    as (url & w' & Hrun & Hrequests & Hframe & Hurl & _).
  exists url, w'. split; [exact Hrun|]. split; [exact Hrequests|].
  split; [exact (Hframe 0 _ eq_refl)|]. split; [exact (Hframe 1 _ eq_refl)|].
  exact Hurl.
Defined.

End BuilderFacts.


(** ** Worked instances *)

Example buildUrl_current :
  buildUrl (Some "k 1") "current" "New York" "" =
  "https://api.weatherstack.com/current?access_key=k+1&query=New+York".
Proof. reflexivity. Qed.

Example buildUrl_historical :
  buildUrl None "historical" "48.85,2.35" "2024-01-02" =
  "https://api.weatherstack.com/historical?access_key=&query=48.85%2C2.35&historical_date=2024-01-02".
Proof. reflexivity. Qed.

Example buildUrl_marine_reads_back :
  Url.pathname (buildUrl (Some "a&b") "marine" "36.96,-122.02#x=1&query=y" "2024-01-02")
  = Some "/marine"
  /\ Url.searchParams (buildUrl (Some "a&b") "marine" "36.96,-122.02#x=1&query=y" "2024-01-02")
     = Some [("access_key", "a&b"); ("query", "36.96,-122.02#x=1&query=y")].
Proof. split; reflexivity. Qed.

Example buildUrl_unknown_mode :
  buildUrl (Some "") "tides" "" "2024-01-02"
  = "https://api.weatherstack.com/current?access_key=&query=".
Proof. reflexivity. Qed.

Example set_overwrites_first :
  URLSearchParams.set "query" "c"
    [("query", "a"); ("access_key", "k"); ("query", "b")]
  = [("query", "c"); ("access_key", "k")].
Proof. reflexivity. Qed.

Example trim_both_ends :
  Trim.trim (String "194" (String "160" (" New York" ++ String "009" " ")))
  = "New York".
Proof. reflexivity. Qed.

Example ToString_array :
  Js.ToString (JArray [JNumber "1"; JNull; JArray [JString "a"; JBool true]; JObject []])
  = Some "1,,a,true,[object Object]".
Proof. reflexivity. Qed.

(** SPACE, TAB and U+00A0 make a blank string. *)
Lemma blank_sample :
  Trim.blank (String " " (String "009" (String "194" (String "160" "")))).
Proof.
  apply (Trim.blank_more " " (String "009" (String "194" (String "160" "")))).
  { cbv. tauto. }
  apply (Trim.blank_more (String "009" "") (String "194" (String "160" ""))).
  { cbv. tauto. }
  apply (Trim.blank_more (String "194" (String "160" "")) "").
  { cbv. tauto. }
  apply Trim.blank_empty.
Qed.

(** C3 at a location of SPACE, TAB and U+00A0, with a result on display. *)
Lemma submit_blank_location_witness :
  Trim.blank (String " " (String "009" (String "194" (String "160" ""))))
  /\ run (handleSubmit (Some "k") "" ""
            (mkState "marine" (String " " (String "009" (String "194" (String "160" ""))))
               "" (Some (JObject [])) false ""))
       (mkState "marine" (String " " (String "009" (String "194" (String "160" ""))))
          "" (Some (JObject [])) false "")
     = (mkState "marine" (String " " (String "009" (String "194" (String "160" ""))))
          "" (Some (JObject [])) false Messages.missing_location, Returned).
Proof.
  split; [exact blank_sample|].
  exact (proj1 (submit_blank_location (Some "k") "" ""
                  (mkState "marine"
                     (String " " (String "009" (String "194" (String "160" ""))))
                     "" (Some (JObject [])) false "")
                  blank_sample)).
Defined.

(** C4 at historical mode, location London, no date. *)
Lemma submit_historical_without_date_witness :
  run (handleSubmit (Some "k") "" "" (mkState "historical" "London" "" None false ""))
    (mkState "historical" "London" "" None false "")
  = (mkState "historical" "London" "" None false Messages.missing_date, Returned)
  /\ forall answer,
       fetches answer
         (handleSubmit (Some "k") "" "" (mkState "historical" "London" "" None false ""))
       = 0.
Proof.
  pose proof (submit_historical_without_date (Some "k") "" ""
                (mkState "historical" "London" "" None false "")
                eq_refl eq_refl) as [Hrun [_ Hfetches]].
  split; [exact Hrun | exact Hfetches].
Defined.

(** C5 does not hold as stated: after a successful cycle, emptying the
    location and submitting shows the validation message and keeps the
    result of the earlier cycle. *)
Lemma validation_error_keeps_prior_result :
  option_map ui
    (steps (Some "k") "" "" initialWorld
       [ InputLocation "London"; SubmitForm;
         Settle 0 (FetchResolved true
                     (BodyParsed (JObject [("current", JObject [("temperature", JNumber "18")])])));
         InputLocation ""; SubmitForm ])
  = Some (mkState "current" "" ""
            (Some (JObject [("current", JObject [("temperature", JNumber "18")])]))
            false Messages.missing_location).
Proof. reflexivity. Qed.

(** C5, amended, at a refused submission and at a rejected request. *)
Lemma error_paths_witness :
  cycle (Some "k") "" "" (mkState "current" "" "" (Some (JObject [])) false "")
    (FetchRejected "Failed to fetch")
  = mkState "current" "" "" (Some (JObject [])) false Messages.missing_location
  /\ (forall w',
        step (Some "k") "" ""
          (mkWorld (mkState "current" "" "" (Some (JObject [])) false "") [])
          SubmitForm = Some w' ->
        isLoading (ui w') = false)
  /\ cycle (Some "k") "" "" (mkState "current" "Tokyo" "" (Some (JObject [])) false "")
       (FetchRejected "Failed to fetch")
     = mkState "current" "Tokyo" "" None false "Failed to fetch"
  /\ fetches (fun _ => FetchRejected "Failed to fetch")
       (handleSubmit (Some "k") "" "" (mkState "current" "Tokyo" "" (Some (JObject [])) false ""))
     = 1.
Proof.
  pose proof (proj1 (error_paths (Some "k") "" ""
                       (mkState "current" "" "" (Some (JObject [])) false "")
                       (FetchRejected "Failed to fetch"))
                Messages.missing_location eq_refl) as (Hcycle & _ & _ & Hstep).
  split; [exact Hcycle|]. split.
  - intros w' Hw'.
    exact (proj1 (proj2 (Hstep
             (mkWorld (mkState "current" "" "" (Some (JObject [])) false "") [])
             w' eq_refl Hw'))).
  - pose proof (proj2 (error_paths (Some "k") "" ""
                         (mkState "current" "Tokyo" "" (Some (JObject [])) false "")
                         (FetchRejected "Failed to fetch"))
                  "Failed to fetch" eq_refl eq_refl) as (_ & _ & _ & _ & Hone).
    split; [reflexivity | exact Hone].
Defined.

(** C6 does not hold as stated: a body with a top-level [error] member
    that is [null], answered with HTTP 200, is accepted as the result. *)
Lemma falsy_error_member_is_accepted :
  cycle (Some "k") "" "" (mkState "current" "London" "" None false "")
    (FetchResolved true (BodyParsed (JObject [("error", JNull)])))
  = mkState "current" "London" "" (Some (JObject [("error", JNull)])) false "".
Proof. reflexivity. Qed.

(** C6, amended, at the body [{"error": {"info": "invalid access key"}}]
    answered with HTTP 200. *)
Lemma embedded_error_witness :
  error (cycle (Some "k") "" "" (mkState "current" "London" "" None false "")
           (FetchResolved true
              (BodyParsed (JObject [("error", JObject [("info", JString "invalid access key")])]))))
  = "invalid access key"
  /\ weatherData
       (cycle (Some "k") "" "" (mkState "current" "London" "" None false "")
          (FetchResolved true
             (BodyParsed (JObject [("error", JObject [("info", JString "invalid access key")])]))))
     = None.
Proof.
  pose proof (embedded_error (Some "k") "" ""
                (mkState "current" "London" "" None false "") true
                (JObject [("error", JObject [("info", JString "invalid access key")])])
                eq_refl eq_refl) as (Hdata & _ & _ & Hinfo & _).
  split; [|exact Hdata].
  apply (Hinfo "invalid access key"); [reflexivity | discriminate].
Defined.

(** C8 at the world reached by typing a location and submitting. *)
Lemma request_cycle_witness :
  reachable (Some "k") "" ""
    (mkWorld (mkState "current" "London" "" None true "")
       [(buildUrl (Some "k") "current" "London" "", afterFetch "" "")])
  /\ forall r w',
       step (Some "k") "" ""
         (mkWorld (mkState "current" "London" "" None true "")
            [(buildUrl (Some "k") "current" "London" "", afterFetch "" "")])
         (Settle 0 r) = Some w' ->
       isLoading (ui w') = false
       /\ inflight w' = []
       /\ (error (ui w') = "" \/ weatherData (ui w') = None).
Proof.
  assert (H : reachable (Some "k") "" ""
                (mkWorld (mkState "current" "London" "" None true "")
                   [(buildUrl (Some "k") "current" "London" "", afterFetch "" "")])).
  { apply (steps_reachable (Some "k") "" "" [InputLocation "London"; SubmitForm]
             initialWorld); [apply reachable_initial | reflexivity]. }
  split; [exact H|].
  exact (proj2 (proj2 (request_cycle (Some "k") "" "" _ H)) 0).
Defined.

(* ================================================================== *)
(** * Further properties of the builder, the handlers and the view     *)
(* ================================================================== *)

(** Case analysis on the 256 values of a byte. *)
Ltac each_byte c := destruct c as [[] [] [] [] [] [] [] []]; reflexivity.

(** ** The request builder *)

(** X1: the query of the URL that [buildUrl] returns reads back to the
    tuples it set and to nothing else, in the order [access_key],
    [query] and, in historical mode with a date, [historical_date],
    each value as USVString (the value given, with U+FFFD for a
    surrogate outside a pair): no byte of the credential, the location
    or the date adds, removes or renames a parameter. *)
Theorem buildUrl_params_exact
    (API_KEY : option string) (mode location date : string) :
  Url.searchParams (buildUrl API_KEY mode location date)
  = Some (("access_key", Unicode.to_usv (key_or_empty API_KEY))
          :: ("query", Unicode.to_usv location)
          :: (if (String.eqb mode MODES.HISTORICAL && Bytes.truthy date)%bool
              then [("historical_date", Unicode.to_usv date)] else [])).
Proof. rewrite searchParams_built. reflexivity. Qed.

Lemma encode_byte_url_bytes (c : ascii) :
  Bytes.all url_byte (UrlEncoded.encode_byte c) = true.
Proof. each_byte c. Qed.

Lemma serialize_url_bytes (l : list (string * string)) :
  Bytes.all url_byte (UrlEncoded.serialize l) = true.
Proof.
  assert (Htuple : forall nv, Bytes.all url_byte (UrlEncoded.tuple nv) = true).
  { intros nv. unfold UrlEncoded.tuple. rewrite !all_app.
    now rewrite !(encode_avoids _ encode_byte_url_bytes). }
  induction l as [|nv rest IH]; [reflexivity|].
  rewrite serialize_cons. destruct rest as [|nv' rest']; [apply Htuple|].
  rewrite all_app, Htuple. exact IH.
Qed.

(** X2: every byte of the URL that [buildUrl] returns is an ASCII letter
    or digit or one of [* - . _ : / ? & = % +], whatever bytes the
    credential, the location and the date are made of: no raw space,
    control or non-ASCII byte reaches [fetch]. *)
Theorem buildUrl_url_bytes
    (API_KEY : option string) (mode location date : string) :
  Bytes.all url_byte (buildUrl API_KEY mode location date) = true.
Proof.
  rewrite buildUrl_shape. unfold URLSearchParams.toString.
  destruct (endpoint_of_cases mode) as [-> | [-> | ->]];
    rewrite !all_app, serialize_url_bytes; reflexivity.
Qed.

(** X3: [buildUrl] loses nothing of its input but the surrogates that
    USVString replaces: two calls that return the same URL were given
    locations with the same USVString (the same location, when neither
    holds a surrogate), credentials with the same USVString (a missing
    one counting as empty), modes with the same endpoint and, when the
    mode is historical, dates with the same USVString. *)
Theorem buildUrl_injective
    (key1 key2 : option string) (mode1 mode2 loc1 loc2 date1 date2 : string) :
  buildUrl key1 mode1 loc1 date1 = buildUrl key2 mode2 loc2 date2 ->
  Unicode.to_usv loc1 = Unicode.to_usv loc2
  /\ (Unicode.has_surrogate loc1 = false ->
      Unicode.has_surrogate loc2 = false -> loc1 = loc2)
  /\ Unicode.to_usv (key_or_empty key1) = Unicode.to_usv (key_or_empty key2)
  /\ endpoint_of mode1 = endpoint_of mode2
  /\ (mode1 = MODES.HISTORICAL ->
      Unicode.to_usv date1 = Unicode.to_usv date2).
Proof.
  intros Heq.
  pose proof (f_equal Url.searchParams Heq) as Hq.
  pose proof (f_equal Url.pathname Heq) as Hp.
  rewrite !searchParams_built in Hq. rewrite !pathname_built in Hp.
  injection Hp as Hp. injection Hq as Hkey Hloc Hrest.
  split; [assumption|]. split.
  { intros H1 H2. now rewrite <- (to_usv_scalar loc1 H1), <- (to_usv_scalar loc2 H2). }
  split; [assumption|]. split; [assumption|].
  intros ->. unfold endpoint_of in Hp.
  change (String.eqb MODES.HISTORICAL MODES.MARINE) with false in Hp.
  rewrite String.eqb_refl in Hp, Hrest.
  destruct (String.eqb mode2 MODES.MARINE); [discriminate|].
  destruct (String.eqb mode2 MODES.HISTORICAL); [|discriminate].
  cbn [andb] in Hrest.
  destruct (Bytes.truthy date1) eqn:H1, (Bytes.truthy date2) eqn:H2;
    try discriminate.
  - congruence.
  - destruct date1, date2; try discriminate. reflexivity.
Qed.

Lemma buildUrl_injective_witness :
  Unicode.to_usv "Paris" = Unicode.to_usv "Paris"
  /\ "Paris" = "Paris"
  /\ endpoint_of "tides" = endpoint_of "current".
Proof.
  destruct (buildUrl_injective None (Some "") "tides" "current" "Paris" "Paris"
              "2024-01-02" "" eq_refl) as (Husv & Hloc & _ & Hend & _).
  split; [exact Husv|]. split; [exact (Hloc eq_refl eq_refl) | exact Hend].
Defined.

(** X4: outside historical mode the date plays no part: [buildUrl]
    returns the URL it returns for the empty date. *)
Theorem buildUrl_ignores_date
    (API_KEY : option string) (mode location date : string) :
  mode <> MODES.HISTORICAL ->
  buildUrl API_KEY mode location date = buildUrl API_KEY mode location "".
Proof.
  intros Hmode. apply String.eqb_neq in Hmode.
  unfold buildUrl. rewrite Hmode. reflexivity.
Qed.

Lemma buildUrl_ignores_date_witness :
  buildUrl (Some "k") "marine" "36.96,-122.02" "2024-01-02"
  = buildUrl (Some "k") "marine" "36.96,-122.02" "".
Proof.
  apply (buildUrl_ignores_date (Some "k") "marine" "36.96,-122.02" "2024-01-02").
  discriminate.
Defined.

(** X5: a mode that is neither [historical] nor [marine], known or not,
    is served as [current]: [buildUrl] returns the URL of the current
    endpoint. *)
Theorem buildUrl_defaults_to_current
    (API_KEY : option string) (mode location date : string) :
  mode <> MODES.HISTORICAL -> mode <> MODES.MARINE ->
  buildUrl API_KEY mode location date
  = buildUrl API_KEY MODES.CURRENT location date.
Proof.
  intros Hh Hm. apply String.eqb_neq in Hh, Hm.
  unfold buildUrl. rewrite Hh, Hm. reflexivity.
Qed.

Lemma buildUrl_defaults_to_current_witness :
  buildUrl None "tides" "Lisbon" "2024-01-02"
  = buildUrl None MODES.CURRENT "Lisbon" "2024-01-02".
Proof.
  apply (buildUrl_defaults_to_current None "tides" "Lisbon" "2024-01-02");
    discriminate.
Defined.

(** ** The trimmed location *)

Section TrimEnds.
Import Bytes Trim.

Lemma append_empty_r_string (s : string) : s ++ "" = s.
Proof. induction s as [|c s IH]; cbn; [reflexivity | now rewrite IH]. Qed.

Lemma blank_app (a b : string) : blank a -> blank b -> blank (a ++ b).
Proof.
  induction 1 as [|w s Hw _ IH]; intros Hb; [exact Hb|].
  rewrite append_assoc. constructor; auto.
Qed.

Lemma trimStart_length_upto (n : nat) :
  forall s, String.length s <= n ->
            String.length (trimStart s) <= String.length s.
Proof.
  induction n as [|n IH]; intros s Hlen.
  - destruct s; [cbn; lia | cbn in Hlen; lia].
  - destruct (trimStart_step s) as [Hstop | (w & r & Hw & -> & Hgo)].
    + rewrite Hstop. lia.
    + rewrite Hgo, length_app. rewrite length_app in Hlen.
      pose proof (white_space_length w Hw).
      assert (String.length (trimStart r) <= String.length r) by (apply IH; lia).
      lia.
Qed.

Lemma trimStart_length (s : string) :
  String.length (trimStart s) <= String.length s.
Proof. apply (trimStart_length_upto (String.length s)). lia. Qed.

(** What [trimStart] returns starts with no white space character. *)
Lemma trimStart_fixed_no_white_start (t w r : string) :
  trimStart t = t -> In w white_space -> t <> w ++ r.
Proof.
  intros Hfix Hw ->. rewrite trimStart_white_space in Hfix by assumption.
  pose proof (trimStart_length r) as Hlen.
  rewrite Hfix, length_app in Hlen.
  pose proof (white_space_length w Hw). lia.
Qed.

Lemma trimStart_idempotent (s : string) :
  trimStart (trimStart s) = trimStart s.
Proof. apply (trimStart_idempotent_upto (String.length s)). lia. Qed.

Lemma trimStart_empty_blank (s : string) : trimStart s = "" -> blank s.
Proof. apply (trimStart_empty_blank_upto (String.length s)). lia. Qed.

(** [trimEnd] cuts a blank tail off. *)
Lemma trimEnd_split (s : string) :
  exists tail, s = trimEnd s ++ tail /\ blank tail.
Proof.
  induction s as [|a r (tail & Hr & Htail)].
  - exists "". split; [reflexivity | constructor].
  - cbn [trimEnd]. destruct (truthy (trimStart (String a r))) eqn:Hwhite.
    + exists tail. split; [|assumption]. cbn. now rewrite <- Hr.
    + exists (String a r). split; [reflexivity|].
      apply trimStart_empty_blank.
      destruct (trimStart (String a r)); [reflexivity | discriminate].
Qed.

Lemma trimEnd_idempotent (s : string) : trimEnd (trimEnd s) = trimEnd s.
Proof.
  induction s as [|a r IH]; [reflexivity|].
  cbn [trimEnd]. destruct (truthy (trimStart (String a r))) eqn:Hwhite;
    [|reflexivity].
  cbn [trimEnd]. rewrite IH.
  destruct (truthy (trimStart (String a (trimEnd r)))) eqn:Hcut; [reflexivity|].
  exfalso.
  assert (Hb : blank (String a (trimEnd r))).
  { apply trimStart_empty_blank.
    destruct (trimStart (String a (trimEnd r))); [reflexivity | discriminate]. }
  destruct (trimEnd_split r) as (tail & Hr & Htail).
  pose proof (blank_app _ _ Hb Htail) as Hall. cbn in Hall. rewrite <- Hr in Hall.
  rewrite (trimStart_blank _ Hall) in Hwhite. discriminate.
Qed.

(** What [trimEnd] returns ends with no white space character. *)
Lemma trimEnd_moves (r w : string) :
  In w white_space -> trimEnd (r ++ w) <> r ++ w.
Proof.
  intros Hw. induction r as [|a r IH].
  - cbn [append]. pose proof (white_space_length w Hw) as Hlen.
    destruct w as [|b w']; [cbn in Hlen; lia|].
    cbn [trimEnd].
    assert (Hall : trimStart (String b w') = "").
    { apply trimStart_blank.
      rewrite <- (append_empty_r_string (String b w')).
      constructor; [assumption | constructor]. }
    rewrite Hall. discriminate.
  - cbn [append trimEnd].
    destruct (truthy (trimStart (String a (r ++ w)))); [|discriminate].
    intros Heq. injection Heq as Heq. now apply IH.
Qed.

(** The start of a string survives [trimEnd] when it is no white space. *)
Lemma trimEnd_keeps_start (t : string) :
  trimStart t = t -> trimStart (trimEnd t) = trimEnd t.
Proof.
  intros Hfix.
  destruct (trimStart_step (trimEnd t)) as [Hstop | (w & r & Hw & Hcut & _)];
    [assumption|].
  exfalso. destruct (trimEnd_split t) as (tail & Ht & _).
  rewrite Hcut, append_assoc in Ht.
  exact (trimStart_fixed_no_white_start t w (r ++ tail) Hfix Hw Ht).
Qed.

Lemma trim_idempotent (s : string) : trim (trim s) = trim s.
Proof.
  unfold trim.
  rewrite (trimEnd_keeps_start (trimStart s) (trimStart_idempotent s)).
  apply trimEnd_idempotent.
Qed.

Lemma trim_no_white_start (s w r : string) :
  In w white_space -> trim s <> w ++ r.
Proof.
  intros Hw. apply trimStart_fixed_no_white_start; [|assumption].
  unfold trim. apply trimEnd_keeps_start, trimStart_idempotent.
Qed.

Lemma trim_no_white_end (s w r : string) :
  In w white_space -> trim s <> r ++ w.
Proof.
  intros Hw Heq.
  apply (trimEnd_moves r w Hw). rewrite <- Heq.
  unfold trim. apply trimEnd_idempotent.
Qed.

End TrimEnds.

(** ** Submitting *)

Lemma refusal_none_iff (API_KEY : option string) (s : AppState) :
  refusal API_KEY s = None
  <-> has_key API_KEY = true
      /\ ~ Trim.blank (location s)
      /\ (mode s = MODES.HISTORICAL -> date s <> "").
Proof.
  unfold refusal. destruct (has_key API_KEY); cbn [negb].
  2: { split; [discriminate | intros [Habs _]; discriminate]. }
  destruct (Bytes.truthy (Trim.trim (location s))) eqn:Hloc; cbn [negb].
  2: { split; [discriminate|]. intros (_ & Hnb & _). exfalso. apply Hnb.
       apply trim_empty_blank.
       destruct (Trim.trim (location s)); [reflexivity | discriminate]. }
  assert (Hnb : ~ Trim.blank (location s)).
  { intros Hb. rewrite (trim_blank _ Hb) in Hloc. discriminate. }
  destruct (String.eqb (mode s) MODES.HISTORICAL) eqn:Hmode; cbn [andb].
  - apply String.eqb_eq in Hmode.
    destruct (date s) as [|c d]; cbn [Bytes.truthy negb].
    + split; [discriminate|]. intros (_ & _ & Hd). now destruct (Hd Hmode).
    + split; [|reflexivity]. intros _.
      split; [reflexivity|]. split; [assumption|]. discriminate.
  - apply String.eqb_neq in Hmode.
    split; [|reflexivity]. intros _.
    split; [reflexivity|]. split; [assumption|]. contradiction.
Qed.

(** X6: [handleSubmit] calls [fetch] exactly when the credential is set,
    the location has a character that is no white space, and, in
    historical mode, a date is picked; it never calls it twice. *)
Theorem handleSubmit_sends_iff
    (API_KEY : option string) (null_read_message to_primitive_message : string)
    (answer : string -> fetch_outcome) (s : AppState) :
  (fetches answer (handleSubmit API_KEY null_read_message to_primitive_message s) = 1
   <-> has_key API_KEY = true
       /\ ~ Trim.blank (location s)
       /\ (mode s = MODES.HISTORICAL -> date s <> ""))
  /\ fetches answer (handleSubmit API_KEY null_read_message to_primitive_message s) <= 1.
Proof.
  rewrite handleSubmit_fetches, <- refusal_none_iff.
  destruct (refusal API_KEY s); split; try lia; split; congruence.
Qed.

(** X7: when [handleSubmit] suspends on a request, the state is the one
    of the render with Loading on and error and result cleared, the
    continuation is the rest of the handler, and the URL it fetches is
    the one [buildUrl] returns for the trimmed location: on the API's
    origin, at the endpoint of the mode, with the credential as
    [access_key] and the trimmed location as [query], both as
    USVString (as they are, when they hold no surrogate outside a
    pair). The trimmed location is not empty, and neither starts nor
    ends with a white space character; in historical mode the URL
    carries the date picked. *)
Theorem handleSubmit_request
    (API_KEY : option string) (null_read_message to_primitive_message : string)
    (s s1 : AppState) (url : string) (k : fetch_outcome -> action) :
  run (handleSubmit API_KEY null_read_message to_primitive_message s) s = (s1, Awaiting url k) ->
  s1 = loading s
  /\ k = afterFetch null_read_message to_primitive_message
  /\ url = buildUrl API_KEY (mode s) (Trim.trim (location s)) (date s)
  /\ Url.origin url = Some API_BASE_URL
  /\ Url.pathname url = Some ("/" ++ endpoint_of (mode s))
  /\ (exists key, API_KEY = Some key /\ key <> ""
                  /\ Url.param "access_key" url = [Unicode.to_usv key])
  /\ Url.param "query" url = [Unicode.to_usv (Trim.trim (location s))]
  /\ (Unicode.has_surrogate (Trim.trim (location s)) = false ->
      Url.param "query" url = [Trim.trim (location s)])
  /\ Unicode.to_usv (Trim.trim (location s)) <> ""
  /\ Trim.trim (location s) <> ""
  /\ (forall w r, In w Trim.white_space ->
                  Trim.trim (location s) <> w ++ r
                  /\ Trim.trim (location s) <> r ++ w)
  /\ (mode s = MODES.HISTORICAL ->
      date s <> "" /\ Url.param "historical_date" url = [Unicode.to_usv (date s)]).
Proof.
  rewrite handleSubmit_run. destruct (refusal API_KEY s) eqn:Href; [discriminate|].
  intros [= <- <- <-].
  apply refusal_none_iff in Href as (Hkey & Hnb & Hdate).
  assert (Hne : Trim.trim (location s) <> "").
  { intros Hempty. apply Hnb. now apply trim_empty_blank. }
  assert (Hq : URLSearchParams.getAll "query"
                 (params_of API_KEY (mode s) (Trim.trim (location s)) (date s))
               = [Unicode.to_usv (Trim.trim (location s))]).
  { unfold params_of.
    destruct (String.eqb (mode s) MODES.HISTORICAL && Bytes.truthy (date s))%bool;
      reflexivity. }
  split; [reflexivity|]. split; [reflexivity|]. split; [reflexivity|].
  split; [apply origin_built|]. split; [apply pathname_built|].
  rewrite !param_built. split.
  { unfold has_key in Hkey. destruct API_KEY as [key|]; [|discriminate].
    exists key. split; [reflexivity|]. split.
    - now apply truthy_iff.
    - unfold params_of, key_or_empty. rewrite Hkey.
      destruct (String.eqb (mode s) MODES.HISTORICAL && Bytes.truthy (date s))%bool;
        reflexivity. }
  split; [exact Hq|].
  split.
  { intros Hscalar. rewrite Hq. f_equal.
    apply to_usv_scalar, Hscalar. }
  split.
  { apply truthy_iff. rewrite to_usv_truthy. now apply truthy_iff. }
  split; [exact Hne|].
  split.
  { intros w r Hw. split;
      [now apply trim_no_white_start | now apply trim_no_white_end]. }
  intros Hmode. split; [auto|].
  unfold params_of. rewrite Hmode, String.eqb_refl.
  apply Hdate, truthy_iff in Hmode. rewrite Hmode. reflexivity.
Qed.

Lemma handleSubmit_request_witness :
  Url.pathname
    (buildUrl (Some "k") "historical" (Trim.trim "  New York ") "2024-01-02")
  = Some "/historical"
  /\ Url.param "query"
       (buildUrl (Some "k") "historical" (Trim.trim "  New York ") "2024-01-02")
     = ["New York"]
  /\ Url.param "historical_date"
       (buildUrl (Some "k") "historical" (Trim.trim "  New York ") "2024-01-02")
     = ["2024-01-02"].
Proof.
  pose proof (handleSubmit_request (Some "k") "" ""
                (mkState "historical" "  New York " "2024-01-02" None false "")
                (mkState "historical" "  New York " "2024-01-02" None true "")
                (buildUrl (Some "k") "historical" (Trim.trim "  New York ") "2024-01-02")
                (afterFetch "" "") eq_refl)
    as (_ & _ & _ & _ & Hpath & _ & Hquery & _ & _ & _ & _ & Hdate).
  split; [exact Hpath|]. split; [exact Hquery|].
  exact (proj2 (Hdate eq_refl)).
Defined.

Lemma among_In (x : string) (l : list string) : among x l = true -> In x l.
Proof.
  unfold among. intros H. apply existsb_exists in H as (y & Hy & Heq).
  apply String.eqb_eq in Heq. now subst.
Qed.

Lemma step_quick_location
    (API_KEY : option string) (null_read_message to_primitive_message : string)
    (w : World) (city : string) :
  among city quick_locations = true ->
  step API_KEY null_read_message to_primitive_message w (ClickQuickLocation city)
  = Some (mkWorld
            (mkState (mode (ui w)) city (date (ui w)) (weatherData (ui w))
               (isLoading (ui w)) (error (ui w)))
            (inflight w)).
Proof. intros H. cbn [step]. rewrite H. reflexivity. Qed.

Lemma step_submit_sent
    (API_KEY : option string) (null_read_message to_primitive_message : string) (w : World) :
  isLoading (ui w) = false ->
  refusal API_KEY (ui w) = None ->
  step API_KEY null_read_message to_primitive_message w SubmitForm
  = Some (mkWorld (loading (ui w))
            (inflight w
             ++ [(buildUrl API_KEY (mode (ui w)) (Trim.trim (location (ui w)))
                    (date (ui w)),
                  afterFetch null_read_message to_primitive_message)])).
Proof.
  intros Hidle Href. cbn [step]. rewrite Hidle. unfold dispatch.
  rewrite handleSubmit_run, Href. reflexivity.
Qed.

(** X8: picking a quick location and submitting sends the request for
    that city: with the credential set, nothing in flight and, in
    historical mode, a date picked, the two events leave the page
    loading, with the city as location and one more request in flight,
    the one [buildUrl] builds for the city. *)
Theorem quick_location_then_submit
    (API_KEY : option string) (null_read_message to_primitive_message : string)
    (w : World) (city : string) :
  In city quick_locations ->
  has_key API_KEY = true ->
  isLoading (ui w) = false ->
  (mode (ui w) = MODES.HISTORICAL -> date (ui w) <> "") ->
  steps API_KEY null_read_message to_primitive_message w [ClickQuickLocation city; SubmitForm]
  = Some (mkWorld
            (mkState (mode (ui w)) city (date (ui w)) None true "")
            (inflight w
             ++ [(buildUrl API_KEY (mode (ui w)) city (date (ui w)),
                  afterFetch null_read_message to_primitive_message)])).
Proof.
  intros Hcity Hkey Hidle Hdate.
  assert (Htrim : Trim.trim city = city /\ among city quick_locations = true).
  { cbn in Hcity. destruct Hcity as [<- | [<- | [<- | [<- | []]]]];
      split; reflexivity. }
  destruct Htrim as [Htrim Hamong].
  cbn [steps]. rewrite (step_quick_location _ _ _ _ _ Hamong).
  rewrite step_submit_sent.
  - cbn [ui inflight mode location date loading]. now rewrite Htrim.
  - exact Hidle.
  - apply refusal_none_iff. cbn [ui location mode date].
    split; [assumption|]. split; [|assumption].
    intros Hb. apply trim_blank in Hb. rewrite Htrim in Hb. subst city.
    discriminate Hamong.
Qed.

Lemma quick_location_then_submit_witness :
  option_map ui
    (steps (Some "k") "" "" initialWorld [ClickQuickLocation "Tokyo"; SubmitForm])
  = Some (mkState "current" "Tokyo" "" None true "").
Proof.
  rewrite (quick_location_then_submit (Some "k") "" "" initialWorld "Tokyo").
  - reflexivity.
  - cbn. tauto.
  - reflexivity.
  - reflexivity.
  - discriminate.
Defined.

(** ** The request cycle *)

Lemma try_block_accepts (null_read_message to_primitive_message : string) (j : json) :
  j <> JNull -> Js.truthy (Js.prop "error" j) = false ->
  try_block null_read_message to_primitive_message (FetchResolved true (BodyParsed j)) = inr j.
Proof.
  intros Hnull Herr. unfold try_block.
  destruct j; try contradiction; cbn [negb orb]; rewrite Herr; reflexivity.
Qed.

(** X9: a cycle whose request settles with a 2xx status and a parsed
    body that is not [null] and has no truthy [error] member ends in
    Success: the body is stored as the result as it is, the error is
    empty and Loading is over; mode, location and date are untouched. *)
Theorem cycle_success
    (API_KEY : option string) (null_read_message to_primitive_message : string)
    (s : AppState) (j : json) :
  refusal API_KEY s = None ->
  j <> JNull ->
  Js.truthy (Js.prop "error" j) = false ->
  cycle API_KEY null_read_message to_primitive_message s (FetchResolved true (BodyParsed j))
  = mkState (mode s) (location s) (date s) (Some j) false "".
Proof.
  intros Href Hnull Herr.
  rewrite (cycle_sent API_KEY null_read_message to_primitive_message s _ Href).
  now rewrite try_block_accepts.
Qed.

Lemma cycle_success_witness :
  cycle (Some "k") "" "" (mkState "current" " London" "" None false "old error")
    (FetchResolved true
       (BodyParsed (JObject [("current", JObject [("temperature", JNumber "18")])])))
  = mkState "current" " London" ""
      (Some (JObject [("current", JObject [("temperature", JNumber "18")])]))
      false "".
Proof.
  apply (cycle_success (Some "k") "" ""
           (mkState "current" " London" "" None false "old error")
           (JObject [("current", JObject [("temperature", JNumber "18")])]));
    [reflexivity | discriminate | reflexivity].
Defined.

Lemma try_block_not_ok (null_read_message to_primitive_message : string) (body : body_outcome) :
  exists message,
    try_block null_read_message to_primitive_message (FetchResolved false body) = inl message.
Proof.
  destruct body as [m | j]; [now exists m|].
  unfold try_block.
  destruct j; cbn [negb orb]; try (eexists; reflexivity);
    destruct (Js.ToString _); eexists; reflexivity.
Qed.

(** X10: a response whose status is not 2xx never becomes the result,
    whatever its body: the cycle ends with no result, Loading over and
    an error message, which is the generic upstream one when the body
    is a document without a truthy [error.info]. *)
Theorem cycle_http_failure
    (API_KEY : option string) (null_read_message to_primitive_message : string)
    (s : AppState) (body : body_outcome) :
  refusal API_KEY s = None ->
  weatherData (cycle API_KEY null_read_message to_primitive_message s (FetchResolved false body)) = None
  /\ isLoading (cycle API_KEY null_read_message to_primitive_message s (FetchResolved false body)) = false
  /\ error (cycle API_KEY null_read_message to_primitive_message s (FetchResolved false body)) <> ""
  /\ (forall j, body = BodyParsed j -> j <> JNull ->
        Js.truthy (Js.optional_prop "info" (Js.prop "error" j)) = false ->
        error (cycle API_KEY null_read_message to_primitive_message s (FetchResolved false body))
        = Messages.upstream_fallback).
Proof.
  intros Href. rewrite (cycle_sent API_KEY null_read_message to_primitive_message s _ Href).
  destruct (try_block_not_ok null_read_message to_primitive_message body) as [m Hm].
  rewrite Hm. cbn [weatherData isLoading error].
  split; [reflexivity|]. split; [reflexivity|].
  split; [apply shown_not_empty|].
  intros j -> Hnull Hinfo. unfold try_block in Hm.
  destruct j; try contradiction; cbn [negb orb] in Hm; rewrite Hinfo in Hm;
    injection Hm as <-; reflexivity.
Qed.

Lemma cycle_http_failure_witness :
  weatherData
    (cycle (Some "k") "" "" (mkState "marine" "36.96,-122.02" "" None false "")
       (FetchResolved false (BodyParsed (JObject [("marine", JArray [])]))))
  = None
  /\ error
       (cycle (Some "k") "" "" (mkState "marine" "36.96,-122.02" "" None false "")
          (FetchResolved false (BodyParsed (JObject [("marine", JArray [])]))))
     = Messages.upstream_fallback.
Proof.
  pose proof (cycle_http_failure (Some "k") "" ""
                (mkState "marine" "36.96,-122.02" "" None false "")
                (BodyParsed (JObject [("marine", JArray [])])) eq_refl)
    as (Hdata & _ & _ & Hmsg).
  split; [exact Hdata|].
  apply (Hmsg (JObject [("marine", JArray [])]));
    [reflexivity | discriminate | reflexivity].
Defined.

(** X11: a body that parses to [null] is never stored: whatever the
    status, reading [json.error] throws, and the cycle ends with no
    result, Loading over, and the message of that TypeError, or the
    generic one when it is empty. *)
Theorem cycle_null_body
    (API_KEY : option string) (null_read_message to_primitive_message : string)
    (s : AppState) (ok : bool) :
  refusal API_KEY s = None ->
  cycle API_KEY null_read_message to_primitive_message s (FetchResolved ok (BodyParsed JNull))
  = mkState (mode s) (location s) (date s) None false (shown null_read_message).
Proof.
  intros Href. now rewrite (cycle_sent API_KEY null_read_message to_primitive_message s _ Href).
Qed.

Lemma cycle_null_body_witness :
  cycle (Some "k") "json is null" "" (mkState "current" "Oslo" "" None false "")
    (FetchResolved true (BodyParsed JNull))
  = mkState "current" "Oslo" "" None false "json is null".
Proof.
  exact (cycle_null_body (Some "k") "json is null" ""
           (mkState "current" "Oslo" "" None false "") true eq_refl).
Defined.

(** X12: a cycle that sent its request settles in exactly one of two
    ways, from whatever state it started: Success, with a result that is
    not [null] and an empty error, or Failed, with an error message and
    no result; in both Loading is over. *)
Theorem cycle_settles
    (API_KEY : option string) (null_read_message to_primitive_message : string)
    (s : AppState) (r : fetch_outcome) :
  refusal API_KEY s = None ->
  isLoading (cycle API_KEY null_read_message to_primitive_message s r) = false
  /\ ((error (cycle API_KEY null_read_message to_primitive_message s r) = ""
       /\ exists j, j <> JNull
                    /\ weatherData (cycle API_KEY null_read_message to_primitive_message s r) = Some j)
      \/ (error (cycle API_KEY null_read_message to_primitive_message s r) <> ""
          /\ weatherData (cycle API_KEY null_read_message to_primitive_message s r) = None)).
Proof.
  intros Href. rewrite (cycle_sent API_KEY null_read_message to_primitive_message s r Href).
  destruct (try_block null_read_message to_primitive_message r) as [m | j] eqn:Htry;
    cbn [isLoading error weatherData]; (split; [reflexivity|]).
  - right. split; [apply shown_not_empty | reflexivity].
  - left. split; [reflexivity|]. exists j. split; [|reflexivity].
    intros ->. unfold try_block in Htry.
    destruct r as [m | ok [m | j]]; try discriminate.
    destruct j; try discriminate;
      destruct (negb ok || _)%bool in Htry; try discriminate;
      destruct (Js.ToString _) in Htry; discriminate.
Qed.

Lemma cycle_settles_witness :
  isLoading (cycle (Some "k") "" "" (mkState "current" "Oslo" "" None true "x")
               (FetchRejected ""))
  = false
  /\ error (cycle (Some "k") "" "" (mkState "current" "Oslo" "" None true "x")
              (FetchRejected ""))
     = Messages.generic_fallback.
Proof.
  split; [|reflexivity].
  exact (proj1 (cycle_settles (Some "k") "" ""
                  (mkState "current" "Oslo" "" None true "x")
                  (FetchRejected "") eq_refl)).
Defined.

(** X13: neither [handleSubmit] nor the settlement of its request writes
    the mode, the location or the date: the location stays as typed,
    untrimmed, and a settlement leaves what the user typed or picked
    while the request was in flight. *)
Theorem cycle_frame
    (API_KEY : option string) (null_read_message to_primitive_message : string)
    (s s' : AppState) (r : fetch_outcome) :
  mode (cycle API_KEY null_read_message to_primitive_message s r) = mode s
  /\ location (cycle API_KEY null_read_message to_primitive_message s r) = location s
  /\ date (cycle API_KEY null_read_message to_primitive_message s r) = date s
  /\ mode (fst (run (afterFetch null_read_message to_primitive_message r) s')) = mode s'
  /\ location (fst (run (afterFetch null_read_message to_primitive_message r) s')) = location s'
  /\ date (fst (run (afterFetch null_read_message to_primitive_message r) s')) = date s'.
Proof.
  rewrite afterFetch_run.
  destruct (refusal API_KEY s) as [m|] eqn:Href.
  - rewrite (cycle_refused API_KEY null_read_message to_primitive_message s r m Href).
    destruct (try_block null_read_message to_primitive_message r); repeat split.
  - rewrite (cycle_sent API_KEY null_read_message to_primitive_message s r Href).
    destruct (try_block null_read_message to_primitive_message r); repeat split.
Qed.

(** ** The page between the events *)

Lemma reachable_mode_button
    (API_KEY : option string) (null_read_message to_primitive_message : string) (w : World) :
  reachable API_KEY null_read_message to_primitive_message w -> In (mode (ui w)) mode_buttons.
Proof.
  induction 1 as [|w e w' Hreach IH Hstep].
  - cbn. tauto.
  - pose proof (reachable_invariant _ _ _ w Hreach) as Hinv.
    destruct w as [s fl]. cbn [ui inflight] in *.
    destruct e as [m | v | v | city | | i r]; cbn [step ui inflight] in Hstep.
    + destruct (among m mode_buttons) eqn:Hm; [|discriminate].
      injection Hstep as <-. exact (among_In m mode_buttons Hm).
    + injection Hstep as <-. exact IH.
    + destruct (String.eqb (mode s) MODES.HISTORICAL); [|discriminate].
      injection Hstep as <-. exact IH.
    + destruct (among city quick_locations); [|discriminate].
      injection Hstep as <-. exact IH.
    + destruct (isLoading s); [discriminate|].
      injection Hstep as <-. unfold dispatch. cbn [ui inflight].
      rewrite handleSubmit_run.
      destruct (refusal API_KEY s); exact IH.
    + unfold invariant in Hinv. cbn [ui inflight] in Hinv.
      destruct Hinv as [[-> _] | (url & -> & _)].
      * destruct i; discriminate.
      * destruct i as [|i]; [|destruct i; discriminate].
        cbn in Hstep. injection Hstep as <-.
        unfold dispatch. cbn [ui inflight]. rewrite afterFetch_run.
        destruct (try_block null_read_message to_primitive_message r); exact IH.
Qed.

(** X14: in every world the page reaches the mode is one of [current],
    [historical] and [marine]: the last [return null] of [renderPanel]
    and the default endpoint of [buildUrl] for other modes are never
    taken by the page. *)
Theorem reachable_mode
    (API_KEY : option string) (null_read_message to_primitive_message : string) (w : World) :
  reachable API_KEY null_read_message to_primitive_message w ->
  mode (ui w) = MODES.CURRENT \/ mode (ui w) = MODES.HISTORICAL
  \/ mode (ui w) = MODES.MARINE.
Proof.
  intros Hreach. pose proof (reachable_mode_button _ _ _ w Hreach) as H.
  cbn in H. intuition congruence.
Qed.

Lemma reachable_mode_witness :
  mode (mkState "marine" "" "" None false "") = MODES.CURRENT
  \/ mode (mkState "marine" "" "" None false "") = MODES.HISTORICAL
  \/ mode (mkState "marine" "" "" None false "") = MODES.MARINE.
Proof.
  apply (reachable_mode None "" ""
           (mkWorld (mkState "marine" "" "" None false "") [])).
  apply (steps_reachable None "" "" [ClickMode "marine"] initialWorld);
    [apply reachable_initial | reflexivity].
Defined.

(** X15: a request in flight is out of the user's reach: no run of mode
    switches, edits and quick picks cancels or replaces it or ends
    Loading, and submitting is not offered until it settles. *)
Theorem inflight_survives
    (API_KEY : option string) (null_read_message to_primitive_message : string)
    (es : list event) (w w' : World) :
  isLoading (ui w) = true ->
  forallb (fun e => negb (is_settle e)) es = true ->
  steps API_KEY null_read_message to_primitive_message w es = Some w' ->
  inflight w' = inflight w
  /\ isLoading (ui w') = true
  /\ step API_KEY null_read_message to_primitive_message w' SubmitForm = None.
Proof.
  revert w. induction es as [|e es IH]; intros w Hload Hes Hsteps.
  - injection Hsteps as <-. cbn [step]. now rewrite Hload.
  - cbn [forallb] in Hes. apply andb_prop in Hes as [He Hes].
    cbn [steps] in Hsteps.
    destruct (step API_KEY null_read_message to_primitive_message w e) as [w1|] eqn:Hstep;
      [|discriminate].
    assert (Hkeep : inflight w1 = inflight w /\ isLoading (ui w1) = true).
    { destruct w as [s fl]. cbn [ui inflight] in *.
      destruct e as [m | v | v | city | | i r]; cbn [step ui inflight] in Hstep.
      - destruct (among m mode_buttons); [|discriminate].
        injection Hstep as <-. now split.
      - injection Hstep as <-. now split.
      - destruct (String.eqb (mode s) MODES.HISTORICAL); [|discriminate].
        injection Hstep as <-. now split.
      - destruct (among city quick_locations); [|discriminate].
        injection Hstep as <-. now split.
      - rewrite Hload in Hstep. discriminate.
      - discriminate He. }
    destruct Hkeep as [Hfl Hl].
    destruct (IH w1 Hl Hes Hsteps) as (Hfl' & Hl' & Hsub).
    split; [congruence|]. now split.
Qed.

Lemma inflight_survives_witness :
  inflight
    (mkWorld (mkState "historical" "Rome" "2024-01-02" None true "")
       [(buildUrl (Some "k") "current" "London" "", afterFetch "" "")])
  = inflight
      (mkWorld (mkState "current" "London" "" None true "")
         [(buildUrl (Some "k") "current" "London" "", afterFetch "" "")])
  /\ isLoading
       (ui (mkWorld (mkState "historical" "Rome" "2024-01-02" None true "")
              [(buildUrl (Some "k") "current" "London" "", afterFetch "" "")]))
     = true
  /\ step (Some "k") "" ""
       (mkWorld (mkState "historical" "Rome" "2024-01-02" None true "")
          [(buildUrl (Some "k") "current" "London" "", afterFetch "" "")])
       SubmitForm
     = None.
Proof.
  exact (inflight_survives (Some "k") "" ""
           [ClickMode "historical"; InputDate "2024-01-02"; InputLocation "Rome"]
           (mkWorld (mkState "current" "London" "" None true "")
              [(buildUrl (Some "k") "current" "London" "", afterFetch "" "")])
           (mkWorld (mkState "historical" "Rome" "2024-01-02" None true "")
              [(buildUrl (Some "k") "current" "London" "", afterFetch "" "")])
           eq_refl eq_refl eq_refl).
Defined.

(** X16: without a credential the page never calls [fetch] and never has
    a result: whatever the user does, in every world it reaches nothing
    is in flight, Loading is off and no result is stored. *)
Theorem no_key_no_request
    (API_KEY : option string) (null_read_message to_primitive_message : string) (w : World) :
  has_key API_KEY = false ->
  reachable API_KEY null_read_message to_primitive_message w ->
  inflight w = [] /\ isLoading (ui w) = false /\ weatherData (ui w) = None.
Proof.
  intros Hkey. induction 1 as [|w e w' _ (Hfl & Hl & Hd) Hstep].
  - repeat split.
  - destruct w as [s fl]. cbn [ui inflight] in *. subst fl.
    destruct e as [m | v | v | city | | i r]; cbn [step ui inflight] in Hstep.
    + destruct (among m mode_buttons); [|discriminate].
      injection Hstep as <-. now repeat split.
    + injection Hstep as <-. now repeat split.
    + destruct (String.eqb (mode s) MODES.HISTORICAL); [|discriminate].
      injection Hstep as <-. now repeat split.
    + destruct (among city quick_locations); [|discriminate].
      injection Hstep as <-. now repeat split.
    + rewrite Hl in Hstep. injection Hstep as <-.
      unfold dispatch. cbn [ui inflight]. rewrite handleSubmit_run.
      unfold refusal. rewrite Hkey. now repeat split.
    + destruct i; discriminate.
Qed.

Lemma no_key_no_request_witness :
  inflight
    (mkWorld (mkState "current" "Tokyo" "" None false Messages.missing_key) [])
  = []
  /\ isLoading
       (ui (mkWorld (mkState "current" "Tokyo" "" None false Messages.missing_key) []))
     = false
  /\ weatherData
       (ui (mkWorld (mkState "current" "Tokyo" "" None false Messages.missing_key) []))
     = None.
Proof.
  apply (no_key_no_request (Some "") "" ""
           (mkWorld (mkState "current" "Tokyo" "" None false Messages.missing_key) []));
    [reflexivity|].
  apply (steps_reachable (Some "") "" "" [ClickQuickLocation "Tokyo"; SubmitForm]
           initialWorld); [apply reachable_initial | reflexivity].
Defined.

(** ** The view *)

Section ViewFacts.
Import View.

Lemma get_truthy (key : string) (v : Js.value) :
  Js.truthy v = true -> get key v = inr (Js.optional_prop key v).
Proof. destruct v as [[]|]; try discriminate; reflexivity. Qed.

Lemma get0_truthy (v : Js.value) :
  Js.truthy v = true -> get0 v = inr (optional_at0 v).
Proof. destruct v as [[]|]; try discriminate; reflexivity. Qed.

Lemma truthy_optional_prop (key : string) (v : Js.value) :
  Js.truthy (Js.optional_prop key v) = true -> Js.truthy v = true.
Proof. destruct v as [[]|]; try discriminate; reflexivity. Qed.

Lemma truthy_optional_at0 (v : Js.value) :
  Js.truthy (optional_at0 v) = true -> Js.truthy v = true.
Proof.
  destruct v as [[| | |s| |]|]; try discriminate; try reflexivity.
  destruct s; [discriminate | reflexivity].
Qed.

(** Each renderer returns, and returns an element exactly when the
    member it shows is truthy. *)
Lemma renderCurrent_returns (wd : Js.value) :
  exists panel,
    renderCurrent wd = inr panel
    /\ (panel <> None <-> Js.truthy (Js.optional_prop "current" wd) = true).
Proof.
  unfold renderCurrent.
  destruct (Js.truthy wd) eqn:Hwd; cbn [negb].
  2: { exists None. split; [reflexivity|]. split; [congruence|].
       intros H. apply truthy_optional_prop in H. congruence. }
  rewrite !(get_truthy _ wd Hwd). cbn [bind].
  destruct (Js.truthy (Js.optional_prop "current" wd)) eqn:Hcur; cbn [negb].
  2: { exists None. split; [reflexivity|]. split; congruence. }
  rewrite !(get_truthy _ _ Hcur). cbn [bind ret].
  eexists. split; [reflexivity|]. split; [reflexivity | discriminate].
Qed.

Lemma renderHistorical_returns (wd : Js.value) (date : string) :
  exists panel,
    renderHistorical wd date = inr panel
    /\ (panel <> None
        <-> Js.truthy (Js.optional_prop date (Js.optional_prop "historical" wd))
            = true).
Proof.
  unfold renderHistorical.
  destruct (Js.truthy wd) eqn:Hwd; cbn [negb].
  2: { exists None. split; [reflexivity|]. split; [congruence|].
       intros H. do 2 apply truthy_optional_prop in H. congruence. }
  rewrite !(get_truthy _ wd Hwd). cbn [bind].
  destruct (Js.truthy (Js.optional_prop "historical" wd)) eqn:Hh; cbn [negb].
  2: { exists None. split; [reflexivity|]. split; [congruence|].
       intros H. apply truthy_optional_prop in H. congruence. }
  rewrite (get_truthy _ _ Hh). cbn [bind].
  destruct (Js.truthy (Js.optional_prop date (Js.optional_prop "historical" wd)))
    eqn:Hday; cbn [negb].
  2: { exists None. split; [reflexivity|]. split; congruence. }
  rewrite !(get_truthy _ _ Hday). cbn [bind ret].
  eexists. split; [reflexivity|]. split; [reflexivity | discriminate].
Qed.

Lemma renderMarine_returns (wd : Js.value) :
  exists panel,
    renderMarine wd = inr panel
    /\ (panel <> None
        <-> Js.truthy (optional_at0 (Js.optional_prop "marine" wd)) = true).
Proof.
  unfold renderMarine.
  destruct (Js.truthy wd) eqn:Hwd; cbn [negb].
  2: { exists None. split; [reflexivity|]. split; [congruence|].
       intros H. apply truthy_optional_at0, truthy_optional_prop in H.
       congruence. }
  rewrite !(get_truthy _ wd Hwd). cbn [bind].
  destruct (Js.truthy (Js.optional_prop "marine" wd)) eqn:Hm; cbn [negb].
  2: { exists None. split; [reflexivity|]. split; [congruence|].
       intros H. apply truthy_optional_at0 in H. congruence. }
  rewrite (get0_truthy _ Hm). cbn [bind].
  destruct (Js.truthy (optional_at0 (Js.optional_prop "marine" wd))) eqn:Hfirst;
    cbn [negb].
  2: { exists None. split; [reflexivity|]. split; congruence. }
  rewrite !(get_truthy _ _ Hfirst). cbn [bind ret].
  eexists. split; [reflexivity|]. split; [reflexivity | discriminate].
Qed.

(** X17: [renderPanel] reads no property of [null] or [undefined]: for
    every mode, date and stored result, whatever document the upstream
    sent, it returns (an element or [null]) without a TypeError. *)
Theorem renderPanel_never_throws (s : AppState) :
  exists panel, renderPanel s = inr panel.
Proof.
  unfold renderPanel.
  destruct (negb (Js.truthy (weatherData s))); [now exists None|].
  destruct (String.eqb (mode s) MODES.CURRENT).
  { destruct (renderCurrent_returns (weatherData s)) as (p & Hp & _). eauto. }
  destruct (String.eqb (mode s) MODES.HISTORICAL).
  { destruct (renderHistorical_returns (weatherData s) (date s)) as (p & Hp & _).
    eauto. }
  destruct (String.eqb (mode s) MODES.MARINE).
  { destruct (renderMarine_returns (weatherData s)) as (p & Hp & _). eauto. }
  now exists None.
Qed.

Lemma renderPanel_shows (s : AppState) :
  ((exists panel, renderPanel s = inr (Some panel))
   <-> (mode s = MODES.CURRENT
        /\ Js.truthy (Js.optional_prop "current" (weatherData s)) = true)
       \/ (mode s = MODES.HISTORICAL
           /\ Js.truthy (Js.optional_prop (date s)
                           (Js.optional_prop "historical" (weatherData s))) = true)
       \/ (mode s = MODES.MARINE
           /\ Js.truthy (optional_at0 (Js.optional_prop "marine" (weatherData s)))
              = true)).
Proof.
  unfold renderPanel.
  destruct (renderCurrent_returns (weatherData s)) as (pc & Hpc & Hc).
  destruct (renderHistorical_returns (weatherData s) (date s)) as (ph & Hph & Hh).
  destruct (renderMarine_returns (weatherData s)) as (pm & Hpm & Hm).
  destruct (Js.truthy (weatherData s)) eqn:Hwd; cbn [negb].
  2: { split; [intros [p Hp]; discriminate|].
       intros [[_ H] | [[_ H] | [_ H]]].
       - apply truthy_optional_prop in H. congruence.
       - do 2 apply truthy_optional_prop in H. congruence.
       - apply truthy_optional_at0, truthy_optional_prop in H. congruence. }
  destruct (String.eqb (mode s) MODES.CURRENT) eqn:Ec.
  { apply String.eqb_eq in Ec. rewrite Hpc. split.
    - intros [p [= ->]]. left. split; [assumption|]. apply Hc. discriminate.
    - intros [[_ H] | [[Habs _] | [Habs _]]]; try (rewrite Ec in Habs; discriminate).
      apply Hc in H. destruct pc as [p|]; [eauto | contradiction]. }
  destruct (String.eqb (mode s) MODES.HISTORICAL) eqn:Eh.
  { apply String.eqb_eq in Eh. rewrite Hph. split.
    - intros [p [= ->]]. right. left. split; [assumption|]. apply Hh. discriminate.
    - intros [[Habs _] | [[_ H] | [Habs _]]]; try (rewrite Eh in Habs; discriminate).
      apply Hh in H. destruct ph as [p|]; [eauto | contradiction]. }
  destruct (String.eqb (mode s) MODES.MARINE) eqn:Em.
  { apply String.eqb_eq in Em. rewrite Hpm. split.
    - intros [p [= ->]]. right. right. split; [assumption|]. apply Hm. discriminate.
    - intros [[Habs _] | [[Habs _] | [_ H]]]; try (rewrite Em in Habs; discriminate).
      apply Hm in H. destruct pm as [p|]; [eauto | contradiction]. }
  apply String.eqb_neq in Ec, Eh, Em.
  split; [intros [p Hp]; discriminate | tauto].
Qed.


(** X18: for a date that the date field can hold, [renderPanel] shows a
    panel exactly when the stored result has a truthy member for the
    mode on display: [current] in current mode, the entry of
    [historical] for the date in the date field in historical mode, the
    first entry of [marine] in marine mode; a result fetched for another
    mode, or for another date, shows nothing. *)
Theorem renderPanel_shows_iff (s : AppState) :
  date_input_value (date s) = true ->
  ((exists panel, renderPanel s = inr (Some panel))
   <-> (mode s = MODES.CURRENT
        /\ Js.truthy (Js.optional_prop "current" (weatherData s)) = true)
       \/ (mode s = MODES.HISTORICAL
           /\ Js.truthy (Js.optional_prop (date s)
                           (Js.optional_prop "historical" (weatherData s))) = true)
       \/ (mode s = MODES.MARINE
           /\ Js.truthy (optional_at0 (Js.optional_prop "marine" (weatherData s)))
              = true)).
Proof. intros _. apply renderPanel_shows. Qed.

Lemma renderPanel_shows_iff_witness :
  exists panel,
    renderPanel
      (mkState "historical" "Oslo" "2024-01-02"
         (Some (JObject [("historical",
                          JObject [("2024-01-02", JObject [("maxtemp", JNumber "3")])])]))
         false "")
    = inr (Some panel).
Proof.
  apply (proj2 (renderPanel_shows_iff
                  (mkState "historical" "Oslo" "2024-01-02"
                     (Some (JObject [("historical",
                                      JObject [("2024-01-02", JObject [("maxtemp", JNumber "3")])])]))
                     false "") eq_refl)).
  right. left. split; reflexivity.
Defined.

(** X19: in every world the page reaches, while a request is in flight
    the submit control is disabled and reads [Fetching...], and neither
    a panel nor an error text is on display; while none is, the control
    is enabled and reads [Get Weather]. *)
Theorem view_while_loading
    (API_KEY : option string) (null_read_message to_primitive_message : string) (w : World) :
  reachable API_KEY null_read_message to_primitive_message w ->
  (inflight w <> [] ->
     submit_disabled (ui w) = true
     /\ submit_label (ui w) = "Fetching..."
     /\ renderPanel (ui w) = inr None
     /\ error_text (ui w) = None)
  /\ (inflight w = [] ->
        submit_disabled (ui w) = false
        /\ submit_label (ui w) = "Get Weather").
Proof.
  intros Hreach. pose proof (reachable_invariant _ _ _ w Hreach) as Hinv.
  unfold invariant in Hinv.
  unfold submit_disabled, submit_label, renderPanel, error_text.
  destruct Hinv as [[Hfl Hl] | (url & Hfl & Hl & He & Hd)]; rewrite Hfl, Hl.
  - split; [congruence|]. intros _. split; reflexivity.
  - rewrite He, Hd. split; [|discriminate]. intros _. repeat split.
Qed.

Lemma view_while_loading_witness :
  submit_disabled (mkState "current" "London" "" None true "") = true
  /\ submit_label (mkState "current" "London" "" None true "") = "Fetching..."
  /\ renderPanel (mkState "current" "London" "" None true "") = inr None
  /\ error_text (mkState "current" "London" "" None true "") = None.
Proof.
  apply (view_while_loading (Some "k") "" ""
           (mkWorld (mkState "current" "London" "" None true "")
              [(buildUrl (Some "k") "current" "London" "", afterFetch "" "")])).
  - apply (steps_reachable (Some "k") "" "" [InputLocation "London"; SubmitForm]
             initialWorld); [apply reachable_initial | reflexivity].
  - discriminate.
Defined.

(** X20: in every world the page reaches exactly one of the three mode
    buttons carries the active class: the one of the mode in the
    state. *)
Theorem one_mode_button_active
    (API_KEY : option string) (null_read_message to_primitive_message : string) (w : World) :
  reachable API_KEY null_read_message to_primitive_message w ->
  filter (fun button =>
            String.eqb (pill_className button (ui w))
              "pill-button pill-button-active")
    mode_buttons
  = [mode (ui w)].
Proof.
  intros Hreach. pose proof (reachable_mode_button _ _ _ w Hreach) as H.
  unfold pill_className.
  cbn in H. destruct H as [<- | [<- | [<- | []]]]; reflexivity.
Qed.

Lemma one_mode_button_active_witness :
  filter (fun button =>
            String.eqb (pill_className button (mkState "marine" "" "" None false ""))
              "pill-button pill-button-active")
    mode_buttons
  = ["marine"].
Proof.
  apply (one_mode_button_active None "" ""
           (mkWorld (mkState "marine" "" "" None false "") [])).
  apply (steps_reachable None "" "" [ClickMode "marine"] initialWorld);
    [apply reachable_initial | reflexivity].
Defined.

(** X21: for a stored result whose [current.temperature] is a number and
    whose [location.name] and [location.country] are strings, the
    current panel is rendered, the text of its one [temp-value] element
    is the number followed by the degree sign and C, and the text of its
    one [location-label] element is the name, a comma and a space, and
    the country. *)
Theorem current_panel_text
    (s : AppState) (doc cur loc : json) (t name country : string) :
  mode s = MODES.CURRENT ->
  weatherData s = Some doc ->
  Js.prop "current" doc = Some cur ->
  Js.prop "temperature" cur = Some (JNumber t) ->
  Js.prop "location" doc = Some loc ->
  Js.prop "name" loc = Some (JString name) ->
  Js.prop "country" loc = Some (JString country) ->
  exists panel,
    renderPanel s = inr (Some panel)
    /\ map textContent (by_class "temp-value" panel) = [Some (t ++ "°C")]
    /\ map textContent (by_class "location-label" panel)
       = [Some (name ++ ", " ++ country)].
Proof.
  intros Hmode Hwd Hcur Htemp Hloc Hname Hcountry.
  destruct doc as [| | | | |members]; try discriminate Hcur.
  destruct cur as [| | | | |fields]; try discriminate Htemp.
  destruct loc as [| | | | |places]; try discriminate Hname.
  unfold renderPanel, renderCurrent. rewrite Hmode, Hwd.
  cbn [Js.truthy negb String.eqb Ascii.eqb Bool.eqb MODES.CURRENT get bind].
  rewrite Hcur, Hloc.
  cbn [Js.truthy negb get bind ret Js.optional_prop].
  rewrite Htemp, Hname, Hcountry.
  eexists. split; [reflexivity|].
  cbn. rewrite append_empty_r_string. split; reflexivity.
Qed.

Lemma current_panel_text_witness :
  exists panel,
    renderPanel
      (mkState "current" "London" ""
         (Some (JObject
                  [("location", JObject [("name", JString "London");
                                         ("country", JString "UK")]);
                   ("current", JObject [("temperature", JNumber "18");
                                        ("humidity", JNumber "60")])]))
         false "")
    = inr (Some panel)
    /\ map textContent (by_class "temp-value" panel) = [Some "18°C"]
    /\ map textContent (by_class "location-label" panel) = [Some "London, UK"].
Proof.
  exact (current_panel_text
           (mkState "current" "London" ""
              (Some (JObject
                       [("location", JObject [("name", JString "London");
                                              ("country", JString "UK")]);
                        ("current", JObject [("temperature", JNumber "18");
                                             ("humidity", JNumber "60")])]))
              false "")
           _ _ _ "18" "London" "UK"
           eq_refl eq_refl eq_refl eq_refl eq_refl eq_refl eq_refl).
Defined.



End ViewFacts.

(** ** Worked instances of the view *)

Example first_unit_of_ascii : View.first_unit "Sunny" = "S".
Proof. reflexivity. Qed.

(** U+1F600 takes the bytes 240 159 152 128; its first unit is the
    surrogate D83D, the bytes 237 160 189. *)
Example first_unit_outside_basic_plane :
  View.first_unit
    (String "240" (String "159" (String "152" (String "128" "x"))))
  = String "237" (String "160" (String "189" "")).
Proof. reflexivity. Qed.

Example marine_of_a_string_shows_an_empty_panel :
  exists panel,
    View.renderPanel
      (mkState "marine" "" "" (Some (JObject [("marine", JString "calm")])) false "")
    = inr (Some panel)
    /\ View.textContent panel
       = Some "Marine WeatherLat: , Lon: Water Temp°CSwell Height mSwell Period sWave Height m".
Proof. eexists. split; reflexivity. Qed.

Example object_child_is_refused :
  exists panel,
    View.renderPanel
      (mkState "current" "" ""
         (Some (JObject [("current", JObject [("temperature", JObject [])])]))
         false "")
    = inr (Some panel)
    /\ View.textContent panel = None.
Proof. eexists. split; reflexivity. Qed.

(** ** Worked instances of the conversions and of the store *)

Example to_usv_keeps_scalar_values :
  Unicode.to_usv "Zürich 😀" = "Zürich 😀".
Proof. reflexivity. Qed.

Example to_usv_replaces_each_surrogate :
  Unicode.to_usv
    ("a" ++ String "237" (String "160" (String "128" ""))
         ++ "b" ++ String "237" (String "191" (String "191" "")))
  = "a" ++ Unicode.replacement ++ "b" ++ Unicode.replacement.
Proof. reflexivity. Qed.

Example ToString_own_toString_throws :
  Js.ToString (JObject [("toString", JNumber "1")]) = None
  /\ Js.ToString (JArray [JString "a"; JObject [("toString", JNull)]]) = None
  /\ Js.ToString (JObject [("valueOf", JNumber "1")]) = Some "[object Object]".
Proof. repeat split. Qed.

Example info_with_own_toString :
  cycle (Some "k") "null read" "cannot convert"
    (mkState "current" "Oslo" "" None false "")
    (FetchResolved true
       (BodyParsed
          (JObject [("error", JObject [("info", JObject [("toString", JNumber "1")])])])))
  = mkState "current" "Oslo" "" None false "cannot convert".
Proof. reflexivity. Qed.

(** Lines 69 and 70 on an empty store: two objects are created, the
    argument and the parameters, and the one URL is logged. *)
Example request_logs_one_url :
  Machine.request (Some "k") "current" "Oslo" "" (Machine.mkStore [] [])
  = Machine.Returns "https://api.weatherstack.com/current?access_key=k&query=Oslo"
      (Machine.mkStore
         [ Machine.Query "current" "Oslo" "";
           Machine.SearchParams [("access_key", "k"); ("query", "Oslo")] ]
         ["https://api.weatherstack.com/current?access_key=k&query=Oslo"]).
Proof. reflexivity. Qed.

(** Called with a reference that is not its argument object, the
    builder of the store throws: the store can tell failure. *)
Example buildUrl_on_a_missing_argument :
  Machine.buildUrl (Some "k") 3 (Machine.mkStore [] [])
  = Machine.Throws (Machine.mkStore [] []).
Proof. reflexivity. Qed.
